(** * The BigBlueButton management command of Esup-Pod

    A shallow embedding of [pod/video/management/commands/bbb.py] and the
    properties of its reconciliation, polling, matching and ingestion
    stages.  Database tables are finite maps from primary key to row, the
    XML answers of the BBB/Scalelite server are DOM trees, Python
    exceptions are an explicit error result, and the effects of the
    command on the outside world are recorded in a trace. *)

From Stdlib Require Import ZArith Ascii String List Sorting.Sorted.
From stdpp Require Import base option list sorting gmap strings.

Local Open Scope string_scope.
Local Open Scope list_scope.
Local Open Scope Z_scope.

(** ** Python strings *)

Module Str.

(** The line feed of ["\n"]. *)
Definition nl : string := String (ascii_of_nat 10) EmptyString.

Definition lower_ascii (c : ascii) : ascii :=
  let n := nat_of_ascii c in
  if ((65 <=? n) && (n <=? 90))%nat then ascii_of_nat (n + 32) else c.

(** [s.lower()], on the ASCII letters. *)
Fixpoint lower (s : string) : string :=
  match s with
  | EmptyString => EmptyString
  | String c s' => String (lower_ascii c) (lower s')
  end.

(** [s.startswith(p)] *)
Fixpoint startswith (s p : string) : bool :=
  match p with
  | EmptyString => true
  | String a p' =>
      match s with
      | EmptyString => false
      | String b s' => Ascii.eqb b a && startswith s' p'
      end
  end.

(** [p in s] *)
Fixpoint contains (s p : string) : bool :=
  startswith s p ||
  match s with
  | EmptyString => false
  | String _ s' => contains s' p
  end.

(** [s.split(sep)] for a one-character separator: never empty. *)
Fixpoint split (sep : ascii) (s : string) : list string :=
  match s with
  | EmptyString => [EmptyString]
  | String c s' =>
      if Ascii.eqb c sep then EmptyString :: split sep s'
      else match split sep s' with
           | [] => [String c EmptyString]
           | w :: ws => String c w :: ws
           end
  end.

(** [l[-1]] of a list of strings produced by [split]. *)
Definition last (l : list string) : string := List.last l EmptyString.

(** [s.replace(old, new)] for a non-empty [old]: the occurrences of [old]
    are found from left to right and do not overlap.  [skip] counts the
    characters of a match that are still to be dropped. *)
Fixpoint replace_from (old new s : string) (skip : nat) : string :=
  match s with
  | EmptyString => EmptyString
  | String c s' =>
      match skip with
      | S k => replace_from old new s' k
      | O =>
          if startswith s old
          then new +:+ replace_from old new s' (Nat.pred (String.length old))
          else String c (replace_from old new s' O)
      end
  end.

Definition replace (s old new : string) : string := replace_from old new s O.

(** Position of the last occurrence of a character, as the pair of what
    is before it and what starts at it. *)
Fixpoint rpartition (sep : ascii) (s : string) : option (string * string) :=
  match s with
  | EmptyString => None
  | String c s' =>
      match rpartition sep s' with
      | Some (a, b) => Some (String c a, b)
      | None => if Ascii.eqb c sep then Some (EmptyString, s) else None
      end
  end.

Fixpoint all_char (c : ascii) (s : string) : bool :=
  match s with
  | EmptyString => true
  | String d s' => Ascii.eqb d c && all_char c s'
  end.

End Str.

(** ** [os.path], on names without a directory part *)

Module Path.

(** [os.path.join(a, b)] for a relative [b]. *)
Definition join (a b : string) : string :=
  if Str.startswith b "/" then b
  else match Str.rpartition "/" a with
       | Some (_, "/") => a +:+ b
       | _ => if String.eqb a EmptyString then b else a +:+ "/" +:+ b
       end.

(** [os.path.basename(p)] *)
Definition basename (p : string) : string :=
  match Str.rpartition "/" p with
  | Some (_, String _ b) => b
  | _ => p
  end.

(** [os.path.dirname(p)], without the stripping of doubled separators. *)
Definition dirname (p : string) : string :=
  match Str.rpartition "/" p with
  | Some (EmptyString, _) => "/"
  | Some (a, _) => a
  | None => EmptyString
  end.

(** [os.path.splitext(p)] of a base name: the extension starts at the
    last dot, unless only dots come before it. *)
Definition splitext (p : string) : string * string :=
  match Str.rpartition "." p with
  | Some (a, b) => if Str.all_char "." a then (p, EmptyString) else (a, b)
  | None => (p, EmptyString)
  end.

End Path.

(** ** Exceptions *)

Inductive exn : Type :=
| IndexError
| AttributeError
| UnboundLocalError
| ParserError (text : string)
| DoesNotExist (model : string)
| OSError (path : string)
| ConnectionError (url : string)
| ExpatError
| EncodeError (video_id : Z).

Inductive result (A : Type) : Type :=
| Ok (a : A)
| Raise (e : exn).

Arguments Ok {A} a.
Arguments Raise {A} e.

(** ** [xml.dom.minidom] *)

Module Dom.

#[warnings="-register-all"] Inductive node : Type :=
| Element (tagName : string) (childNodes : list node)
| Text (data : string).

Definition is_element_named (name : string) (n : node) : bool :=
  match n with
  | Element tag _ => String.eqb tag name
  | Text _ => false
  end.

(** [parent.getElementsByTagName(name)]: the descendant elements of that
    name, in document order. *)
Fixpoint getElementsByTagName (name : string) (parent : node) : list node :=
  match parent with
  | Text _ => []
  | Element _ children =>
      flat_map
        (fun child =>
           (if is_element_named name child then [child] else [])
             ++ getElementsByTagName name child)
        children
  end.

(** [l[0]] *)
Definition item0 (l : list node) : result node :=
  match l with
  | [] => Raise IndexError
  | n :: _ => Ok n
  end.

(** [n.firstChild.data]: only a text node has [data]; [firstChild] is
    [None] on an element without children. *)
Definition firstChild_data (n : node) : result string :=
  match n with
  | Element _ (Text d :: _) => Ok d
  | _ => Raise AttributeError
  end.

(** [n.getElementsByTagName(name)[0].firstChild.data] *)
Definition data_of (name : string) (n : node) : result string :=
  match item0 (getElementsByTagName name n) with
  | Ok e => firstChild_data e
  | Raise e => Raise e
  end.

(** The document node returned by [parseString] holds the root element. *)
Definition Document (root : node) : node := Element "#document" [root].

End Dom.

(** ** The rows of the tables *)

Module Meeting.
(** Modelled from the spec: the [Meeting] model of [pod.bbb.models] is
    not part of the command; its fields are those the command reads and
    writes, with the types the data model of the specification gives
    them (the URLs and the owner are nullable). *)
Record t : Type := mk {
  meeting_id : string;
  internal_meeting_id : string;
  meeting_name : string;
  session_date : Z;
  encoding_step : Z;
  recorded : bool;
  recording_available : bool;
  recording_url : option string;
  thumbnail_url : option string;
  encoded_by_id : option Z
}.

Definition set_recorded (b : bool) (m : t) : t :=
  mk (meeting_id m) (internal_meeting_id m) (meeting_name m)
     (session_date m) (encoding_step m) b (recording_available m)
     (recording_url m) (thumbnail_url m) (encoded_by_id m).

Definition set_recording (url thumbnail : string) (m : t) : t :=
  mk (meeting_id m) (internal_meeting_id m) (meeting_name m)
     (session_date m) (encoding_step m) (recorded m) true
     (Some url) (Some thumbnail) (encoded_by_id m).

End Meeting.

Module BBBUser.
(** Modelled from the spec: the [User] model of [pod.bbb.models], the
    participant of a meeting, with nullable link to a Pod account. *)
Record t : Type := mk {
  full_name : string;
  role : string;
  meeting_id : Z;
  username : option string;
  user_id : option Z
}.

Definition set_link (name : string) (uid : Z) (u : t) : t :=
  mk (full_name u) (role u) (meeting_id u) (Some name) (Some uid).

End BBBUser.

Module User.
(** The fields of [django.contrib.auth.models.User] the command uses. *)
Record t : Type := mk {
  username : string;
  first_name : string;
  last_name : string
}.
End User.

Module Video.
(** Modelled from the spec: the fields of the [Video] model of
    [pod.video.models] that the command sets. *)
Record t : Type := mk {
  title : string;
  owner : option Z;
  type_id : Z;
  date_evt : Z;
  video : string
}.
End Video.

(** ** The world of one run *)

(** What the command does to its collaborators, in the order it does it. *)
Inductive event : Type :=
| Request (url : string)
| Query_meeting (internal_meeting_id : string)
| Makedirs (path : string)
| Rename (src dst : string)
| Encode (video_id : Z)
| Mail_admins (message html_message : string).

(** A directory as [os.walk] sees it. *)
#[warnings="-register-all"] Inductive dirtree : Type :=
| Dir (dirs : list (string * dirtree)) (files : list string).

(** The database, and the trace of the effects so far. *)
Record pod : Type := mkPod {
  meetings : gmap Z Meeting.t;
  bbb_users : gmap Z BBBUser.t;
  users : gmap Z User.t;
  types : gset Z;
  videos : gmap Z Video.t;
  trace : list event
}.

(** The Django settings read at import time, and the answers of the
    collaborators of one run.  An answer may depend on the effects that
    came before it. *)
Record environment : Type := mkEnv {
  settings_DEFAULT_BBB_PATH : string;
  settings_BBB_SERVER_URL : string;
  BBB_SECRET_KEY : string;
  DEFAULT_BBB_TYPE_ID : Z;
  BBB_USERNAME_FORMAT : string;
  VIDEO_ALLOWED_EXTENSIONS : list string;
  ENCODE_VIDEO : list event -> Z -> result unit;
  MEDIA_ROOT : string;
  sha1_hexdigest : string -> string;
  quote_plus : string -> string;
  requests_get : list event -> string -> result string;
  parseString : string -> result Dom.node;
  toxml : Dom.node -> string;
  dateutil_parse : string -> result Z;
  timezone_now : Z;
  datetime_now_str : string;
  drop_directory : option dirtree;
  os_makedirs : list event -> string -> result unit;
  os_rename : list event -> string -> string -> result unit;
  get_storage_path_video : Video.t -> string -> string;
  str_exc : exn -> string;
  traceback_format_exc : exn -> string
}.

Definition endswith_sep (s : string) : bool :=
  match Str.rpartition "/" s with
  | Some (_, "/") => true
  | _ => false
  end.

(** The last character of DEFAULT_BBB_PATH must be an OS separator. *)
Definition DEFAULT_BBB_PATH (env : environment) : string :=
  let p := settings_DEFAULT_BBB_PATH env in
  if endswith_sep p then p else p +:+ "/".

(** The last character of BBB_SERVER_URL must be /. *)
Definition BBB_SERVER_URL (env : environment) : string :=
  let u := settings_BBB_SERVER_URL env in
  if endswith_sep u then u else u +:+ "/".


(** ** Computations of the command

    A computation reads and writes the database and the trace, and either
    returns a value or raises.  What was written before an exception stays
    written: every [save()] is committed on its own. *)

Definition M (A : Type) : Type := pod -> result A * pod.

#[export] Instance M_ret : MRet M := fun A a s => (Ok a, s).

#[export] Instance M_bind : MBind M := fun A B f m s =>
  match m s with
  | (Ok a, s') => f a s'
  | (Raise e, s') => (Raise e, s')
  end.

(** A pure step that may raise. *)
Definition lift {A : Type} (r : result A) : M A := fun s => (r, s).

(** [try: body except Exception as e: handler] *)
Definition try_except {A : Type} (body : M A) (handler : exn -> M A) : M A :=
  fun s =>
    match body s with
    | (Ok a, s') => (Ok a, s')
    | (Raise e, s') => handler e s'
    end.

(** [for x in l: f(x)], the value of [f(x)] being dropped. *)
Fixpoint for_each {A B : Type} (l : list A) (f : A -> M B) : M unit :=
  match l with
  | [] => mret tt
  | x :: l' => _ ← f x; for_each l' f
  end.

(** [for x in l: acc = f(x, acc)] *)
Fixpoint for_fold {A B : Type} (l : list A) (f : A -> B -> M B) (acc : B) : M B :=
  match l with
  | [] => mret acc
  | x :: l' => acc' ← f x acc; for_fold l' f acc'
  end.

(** Reading the tables. *)
Definition read {A : Type} (f : pod -> A) : M A := fun s => (Ok (f s), s).

Definition log (e : event) : M unit := fun s =>
  (Ok tt, mkPod (meetings s) (bbb_users s) (users s) (types s) (videos s)
                (trace s ++ [e])).

(** A call to a collaborator whose answer may depend on the trace. *)
Definition call {A : Type} (e : event) (answer : list event -> result A) : M A :=
  fun s => (answer (trace s), snd (log e s)).

(** ** The object-relational mapper *)

Module Orm.

(** The order of the primary keys, on rows paired with their key. *)
Definition id_le {A : Type} (x y : Z * A) : Prop := (x.1 ≤ y.1)%Z.

#[global] Instance id_le_dec {A : Type} : RelDecision (@id_le A).
Proof. intros x y. unfold id_le. apply _. Defined.

(** [order_by('id')] *)
Definition order_by_id {A : Type} (rows : list (Z * A)) : list (Z * A) :=
  merge_sort id_le rows.

(** [order_by('-id')] *)
Definition order_by_id_desc {A : Type} (rows : list (Z * A)) : list (Z * A) :=
  merge_sort (flip id_le) rows.

(** [objects.filter(...)] with the condition [p]. *)
Definition filter {A : Type} (p : A -> bool) (table : gmap Z A) : list (Z * A) :=
  List.filter (fun row => p row.2) (map_to_list table).

(** [queryset.first()]: a queryset without ordering is ordered by the
    primary key. *)
Definition first {A : Type} (rows : list (Z * A)) : option (Z * A) :=
  head (order_by_id rows).

(** The primary key given to a new row. *)
Definition next_id {A : Type} (table : gmap Z A) : Z :=
  1 + foldr Z.max 0 (map_to_list table).*1.

(** [objects.get(id=pk)] *)
Definition get {A : Type} (model : string) (pk : Z) (table : gmap Z A) : result A :=
  match table !! pk with
  | Some row => Ok row
  | None => Raise (DoesNotExist model)
  end.

End Orm.

Definition with_meetings (f : gmap Z Meeting.t -> gmap Z Meeting.t) (s : pod) : pod :=
  mkPod (f (meetings s)) (bbb_users s) (users s) (types s) (videos s) (trace s).

Definition with_bbb_users (f : gmap Z BBBUser.t -> gmap Z BBBUser.t) (s : pod) : pod :=
  mkPod (meetings s) (f (bbb_users s)) (users s) (types s) (videos s) (trace s).

Definition with_videos (f : gmap Z Video.t -> gmap Z Video.t) (s : pod) : pod :=
  mkPod (meetings s) (bbb_users s) (users s) (types s) (f (videos s)) (trace s).

(** [Meeting.objects.filter(internal_meeting_id=key).first()] *)
Definition Meeting_first (key : string) : M (option (Z * Meeting.t)) := fun s =>
  (Ok (Orm.first
         (Orm.filter (fun m => String.eqb (Meeting.internal_meeting_id m) key)
                     (meetings s))),
   snd (log (Query_meeting key) s)).

(** [m.save()] of a row read from the table. *)
Definition Meeting_save (pk : Z) (m : Meeting.t) : M unit := fun s =>
  (Ok tt, with_meetings (insert pk m) s).

(** [m.save()] of a new row; gives [m.id]. *)
Definition Meeting_create (m : Meeting.t) : M Z := fun s =>
  let pk := Orm.next_id (meetings s) in
  (Ok pk, with_meetings (insert pk m) s).

(** [BBBUser.objects.filter(full_name=name, meeting_id=mid).first()] *)
Definition BBBUser_first (name : string) (mid : Z) : M (option (Z * BBBUser.t)) :=
  fun s =>
    (Ok (Orm.first
           (Orm.filter (fun u => String.eqb (BBBUser.full_name u) name
                                 && Z.eqb (BBBUser.meeting_id u) mid)
                       (bbb_users s))),
     s).

Definition BBBUser_save (pk : Z) (u : BBBUser.t) : M unit := fun s =>
  (Ok tt, with_bbb_users (insert pk u) s).

Definition BBBUser_create (u : BBBUser.t) : M Z := fun s =>
  let pk := Orm.next_id (bbb_users s) in
  (Ok pk, with_bbb_users (insert pk u) s).

Definition Video_create (v : Video.t) : M Z := fun s =>
  let pk := Orm.next_id (videos s) in
  (Ok pk, with_videos (insert pk v) s).

(** ** The command *)

(** [print_if_debug] writes to the standard output when DEBUG is set and
    does nothing else: its calls, and the values computed only for them
    (the name of the directory in [process_directory]), are left out. *)

Section Command.

Variable env : environment.

(** The two lines every [except Exception as e] handler of the command
    ends with: [message_error += err + "\n"] and
    [html_message_error += "<li>" + err + "</li>"], where [err] is the
    handler's own prefix followed by [str(e)], [". "] and the traceback. *)
Definition report_error (prefix html_message_error message_error : string)
    (e : exn) : string * string :=
  let err := prefix +:+ str_exc env e +:+ ". " +:+ traceback_format_exc env e in
  (html_message_error +:+ "<li>" +:+ err +:+ "</li>",
   message_error +:+ err +:+ Str.nl).

(** Management of FAILED error (basically error in checksum). *)
Definition report_failed (urlToRequest : string) (xmldoc : Dom.node)
    (html_message_error message_error : string) : string * string :=
  let err := "Return code = FAILED for : " +:+ urlToRequest
             +:+ " => : " +:+ toxml env xmldoc in
  (html_message_error +:+ "<li>" +:+ err +:+ "</li>",
   message_error +:+ err +:+ Str.nl).

Definition get_attendee (attendee : Dom.node) (idActualMeeting : Z)
    (html_message_error message_error : string) : M (string * string) :=
  try_except
    (fullName ← lift (Dom.data_of "fullName" attendee);
     role ← lift (Dom.data_of "role" attendee);
     _ ← (if String.eqb role "MODERATOR" then
            oBBBUser ← BBBUser_first fullName idActualMeeting;
            match oBBBUser with
            | Some _ => mret tt
            | None =>
                _ ← BBBUser_create
                      (BBBUser.mk fullName "MODERATOR" idActualMeeting None None);
                mret tt
            end
          else mret tt);
     mret (html_message_error, message_error))
    (fun e =>
       mret (report_error
               "Problem to get BBB attendee and save in Pod database : "
               html_message_error message_error e)).

Definition get_meeting (meeting : Dom.node)
    (html_message_error message_error : string) : M (string * string) :=
  try_except
    (meetingName ← lift (Dom.data_of "meetingName" meeting);
     meetingID ← lift (Dom.data_of "meetingID" meeting);
     internalMeetingID ← lift (Dom.data_of "internalMeetingID" meeting);
     date ← lift (Dom.data_of "createDate" meeting);
     recording ← lift (Dom.data_of "recording" meeting);
     oMeeting ← Meeting_first internalMeetingID;
     idActualMeeting ←
       match oMeeting with
       | Some (pk, oMeeting) =>
           _ ← (if negb (Meeting.recorded oMeeting) && String.eqb recording "true"
                then Meeting_save pk (Meeting.set_recorded true oMeeting)
                else mret tt);
           mret pk
       | None =>
           dateForSql ← lift (dateutil_parse env date);
           Meeting_create
             (Meeting.mk meetingID internalMeetingID meetingName dateForSql 0
                         (String.eqb recording "true") false None None None)
       end;
     _ ← for_each (Dom.getElementsByTagName "attendee" meeting)
           (fun attendee =>
              get_attendee attendee idActualMeeting
                           html_message_error message_error);
     mret (html_message_error, message_error))
    (fun e =>
       mret (report_error
               "Problem to get BBB meeting and save in Pod database : "
               html_message_error message_error e)).

Definition get_bbb_meetings_by_xml (html_message_error message_error : string)
    : M (string * string) :=
  try_except
    (let checksum := sha1_hexdigest env ("getMeetings" +:+ BBB_SECRET_KEY env) in
     let urlToRequest :=
       BBB_SERVER_URL env +:+ "bigbluebutton/api/getMeetings?checksum="
                      +:+ checksum in
     addr ← call (Request urlToRequest)
                 (fun tr => requests_get env tr urlToRequest);
     xmldoc ← lift (parseString env addr);
     returncode ← lift (Dom.data_of "returncode" xmldoc);
     let '(html_message_error, message_error) :=
       if String.eqb returncode "FAILED"
       then report_failed urlToRequest xmldoc html_message_error message_error
       else (html_message_error, message_error) in
     _ ← for_each (Dom.getElementsByTagName "meeting" xmldoc)
           (fun meeting => get_meeting meeting html_message_error message_error);
     mret (html_message_error, message_error))
    (fun e =>
       mret (report_error
               ("Problem to parse XML meetings on the BBB/Scalelite server "
                  +:+ "or save in Pod database : ")
               html_message_error message_error e)).

(** The playback loop of [get_recording]: each entry overwrites
    [recording_url] and [thumbnail_url]; [thumbnail_url] is unbound until
    an entry was read. *)
Definition read_playbacks (playbacks : list Dom.node)
    : M (string * option string) :=
  for_fold playbacks
    (fun playback (_ : string * option string) =>
       recording_url ← lift (Dom.data_of "url" playback);
       thumbnail_url ← lift (Dom.data_of "image" playback);
       mret (recording_url, Some thumbnail_url))
    (EmptyString, None).

Definition get_recording (recording : Dom.node) (internal_meeting_id : string)
    (html_message_error message_error : string) : M (string * string) :=
  try_except
    (internalMeetingID ← lift (Dom.data_of "internalMeetingID" recording);
     _ ← (if String.eqb internalMeetingID internal_meeting_id then
            oMeeting ← Meeting_first internal_meeting_id;
            match oMeeting with
            | Some (pk, oMeeting) =>
                '(recording_url, thumbnail_url) ←
                  read_playbacks (Dom.getElementsByTagName "playback" recording);
                if negb (String.eqb recording_url EmptyString) then
                  thumbnail_url ←
                    lift (match thumbnail_url with
                          | Some t => Ok t
                          | None => Raise UnboundLocalError
                          end);
                  Meeting_save pk
                    (Meeting.set_recording recording_url thumbnail_url oMeeting)
                else mret tt
            | None => mret tt
            end
          else mret tt);
     mret (html_message_error, message_error))
    (fun e =>
       mret (report_error
               "Problem to get BBB recording and save in Pod database : "
               html_message_error message_error e)).

Definition get_bbb_recording_by_xml (meeting_id internal_meeting_id : string)
    (html_message_error message_error : string) : M (string * string) :=
  try_except
    (let uri := "getRecordingsmeetingID=" +:+ quote_plus env meeting_id
                  +:+ BBB_SECRET_KEY env in
     let checksum := sha1_hexdigest env uri in
     let urlToRequest :=
       BBB_SERVER_URL env +:+ "bigbluebutton/api/getRecordings?meetingID="
                      +:+ quote_plus env meeting_id
                      +:+ "&checksum=" +:+ checksum in
     addr ← call (Request urlToRequest)
                 (fun tr => requests_get env tr urlToRequest);
     xmldoc ← lift (parseString env addr);
     returncode ← lift (Dom.data_of "returncode" xmldoc);
     let '(html_message_error, message_error) :=
       if String.eqb returncode "FAILED"
       then report_failed urlToRequest xmldoc html_message_error message_error
       else (html_message_error, message_error) in
     _ ← for_each (Dom.getElementsByTagName "recording" xmldoc)
           (fun recording =>
              get_recording recording internal_meeting_id
                            html_message_error message_error);
     mret (html_message_error, message_error))
    (fun e =>
       mret (report_error
               ("Problem to parse XML recording on the BBB/Scalelite server "
                  +:+ "or save in Pod database : ")
               html_message_error message_error e)).

(** [timezone.timedelta(days=d)], in microseconds. *)
Definition timedelta_days (d : Z) : Z := d * 86400 * 1000000.

(** [Meeting.objects.filter(recorded=True, recording_available=False,
    session_date__gte=dateSince4d).order_by('id')] *)
Definition meetings_to_check (now : Z) (table : gmap Z Meeting.t)
    : list (Z * Meeting.t) :=
  let dateSince4d := now - timedelta_days 4 in
  Orm.order_by_id
    (Orm.filter
       (fun m => Meeting.recorded m
                 && negb (Meeting.recording_available m)
                 && (dateSince4d <=? Meeting.session_date m)%Z)
       table).

(** Nothing raises in the body once the loop runs: the call in it catches
    every exception itself. *)
Definition get_bbb_meetings_recorded (html_message_error message_error : string)
    : M (string * string) :=
  try_except
    (meetings ← read (fun s => meetings_to_check (timezone_now env) (meetings s));
     for_fold meetings
       (fun meeting '(html_message_error, message_error) =>
          get_bbb_recording_by_xml
            (Meeting.meeting_id meeting.2)
            (Meeting.internal_meeting_id meeting.2)
            html_message_error message_error)
       (html_message_error, message_error))
    (fun e =>
       mret (report_error
               "Problem to get recorded meetings in Pod database : "
               html_message_error message_error e)).

(** [Concat('last_name', Value(' '), 'first_name')] or
    [Concat('first_name', Value(' '), 'last_name')], by the
    BBB_USERNAME_FORMAT setting. *)
Definition bbbUsernameFormat (u : User.t) : string :=
  if String.eqb (BBB_USERNAME_FORMAT env) "last_name first_name"
  then User.last_name u +:+ " " +:+ User.first_name u
  else User.first_name u +:+ " " +:+ User.last_name u.

(** The lookup [name__icontains]: containment without regard to the case
    of the ASCII letters. *)
Definition icontains (name value : string) : bool :=
  Str.contains (Str.lower name) (Str.lower value).

(** [BBBUser.objects.filter(user_id__isnull=True).order_by('-id')[:500]] *)
Definition bbb_users_to_match (table : gmap Z BBBUser.t) : list (Z * BBBUser.t) :=
  take 500
    (Orm.order_by_id_desc
       (Orm.filter (fun u => negb (bool_decide (is_Some (BBBUser.user_id u))))
                   table)).

(** [User.objects.annotate(name=bbbUsernameFormat)
        .filter(name__icontains=full_name).first()] *)
Definition pod_user_matching (full_name : string) (table : gmap Z User.t)
    : option (Z * User.t) :=
  Orm.first (Orm.filter (fun u => icontains (bbbUsernameFormat u) full_name) table).

(** The body of the loop of [matching_bbb_pod_user]: search if this BBB
    user matching to a Pod user, take the first one. *)
Definition match_bbb_user (bbbUser : Z * BBBUser.t) : M unit :=
  podUser ← read (fun s =>
    pod_user_matching (BBBUser.full_name bbbUser.2) (users s));
  match podUser with
  | Some (uid, podUser) =>
      BBBUser_save bbbUser.1
        (BBBUser.set_link (User.username podUser) uid bbbUser.2)
  | None => mret tt
  end.

Definition matching_bbb_pod_user (html_message_error message_error : string)
    : M (string * string) :=
  try_except
    (bbbUsers ← read (fun s => bbb_users_to_match (bbb_users s));
     _ ← for_each bbbUsers match_bbb_user;
     mret (html_message_error, message_error))
    (fun e =>
       mret (report_error "Problem to matching BBB user to Pod user : "
                          html_message_error message_error e)).

(** [User.objects.get(id=pk)] and [Type.objects.get(id=pk)] *)
Definition User_get (pk : Z) : M User.t := fun s =>
  (Orm.get "User" pk (users s), s).

Definition Type_get (pk : Z) : M Z := fun s =>
  (if bool_decide (pk ∈ types s) then Ok pk else Raise (DoesNotExist "Type"), s).

(** A video file exist in the BBB directory : encode it.  No exception is
    caught here. *)
Definition encode_file_exist (filename extension : string)
    (message_error html_message_error : string) : M (string * string) :=
  let source_file := Path.join (DEFAULT_BBB_PATH env) filename in
  let internalMeetingId := Str.replace filename ("." +:+ extension) EmptyString in
  oMeeting ← Meeting_first internalMeetingId;
  match oMeeting with
  | Some (_, oMeeting) =>
      owner ← match Meeting.encoded_by_id oMeeting with
              | Some uid =>
                  if Z.eqb uid 0 then mret None
                  else (_ ← User_get uid; mret (Some uid))
              | None => mret None
              end;
      type ← Type_get (DEFAULT_BBB_TYPE_ID env);
      let video0 :=
        Video.mk (Meeting.meeting_name oMeeting) owner type
                 (Meeting.session_date oMeeting) EmptyString in
      let storage_path :=
        get_storage_path_video env video0 (Path.basename source_file) in
      let dt := Str.replace (datetime_now_str env) ":" "-" in
      let '(nom, ext) := Path.splitext (Path.basename source_file) in
      let ext := Str.lower ext in
      let video_name := nom +:+ "_" +:+ Str.replace dt " " "_" +:+ ext in
      let video :=
        Video.mk (Video.title video0) owner type (Video.date_evt video0)
                 (Path.join (Path.dirname storage_path) video_name) in
      let video_path := Path.join (MEDIA_ROOT env) (Video.video video) in
      _ ← call (Makedirs (Path.dirname video_path))
               (fun tr => os_makedirs env tr (Path.dirname video_path));
      _ ← call (Rename source_file video_path)
               (fun tr => os_rename env tr source_file video_path);
      video_id ← Video_create video;
      _ ← call (Encode video_id) (fun tr => ENCODE_VIDEO env tr video_id);
      mret (html_message_error, message_error)
  | None => mret (html_message_error, message_error)
  end.

(** [extension in valid_ext] *)
Definition is_in (x : string) (l : list string) : bool :=
  existsb (String.eqb x) l.

Definition process_directory (files : list string) (root : string)
    (html_message_error message_error : string) : M (string * string) :=
  for_fold files
    (fun filename '(html_message_error, message_error) =>
       let extension := Str.last (Str.split "." filename) in
       let valid_ext := VIDEO_ALLOWED_EXTENSIONS env in
       if negb (is_in extension valid_ext
                && negb (String.eqb filename extension))
       then mret (html_message_error, message_error)
       else encode_file_exist filename extension
                              message_error html_message_error)
    (html_message_error, message_error).

(** What the loop [for root, dirs, files in os.walk(top)] of [handle]
    goes through: the walk is top-down, and a directory named [logs] is
    removed from [dirs] before the walk descends. *)
Fixpoint os_walk (top : string) (tree : dirtree) : list (string * list string) :=
  match tree with
  | Dir dirs files =>
      (top, files) ::
      (fix descend (ds : list (string * dirtree)) (removed : bool) :=
         match ds with
         | [] => []
         | (name, sub) :: ds' =>
             if negb removed && String.eqb name "logs" then descend ds' true
             else os_walk (Path.join top name) sub ++ descend ds' removed
         end) dirs false
  end.

Definition valid_args : list string := ["main"].

(** [Command.handle], with [options['task']] as [task]. *)
Definition handle (task : string) : M unit :=
  if negb (String.eqb task EmptyString) && is_in task valid_args then
    '(html_message_error, message_error) ←
      get_bbb_meetings_by_xml EmptyString EmptyString;
    '(html_message_error, message_error) ←
      get_bbb_meetings_recorded html_message_error message_error;
    '(html_message_error, message_error) ←
      matching_bbb_pod_user html_message_error message_error;
    '(html_message_error, message_error) ←
      for_fold
        (match drop_directory env with
         | Some tree => os_walk (DEFAULT_BBB_PATH env) tree
         | None => []
         end)
        (fun '(root, files) '(html_message_error, message_error) =>
           process_directory files root html_message_error message_error)
        (html_message_error, message_error);
    if negb (String.eqb message_error EmptyString)
    then log (Mail_admins message_error html_message_error)
    else mret tt
  else mret tt.

End Command.

(** The state after a run, and after a sequence of runs, each with the
    settings and the answers of its own time. *)
Definition run (env : environment) (s : pod) : pod := (handle env "main" s).2.

Definition runs (envs : list environment) (s : pod) : pod :=
  foldl (fun s env => run env s) s envs.

(** ** Relations between tables *)

(** What one [get_meeting] does to the table of meetings: nothing, or the
    [recorded] flag of a known meeting goes from false to true, or a
    meeting with an internal id not yet in the table is added, recording
    not available. *)
Inductive reconciled (t : gmap Z Meeting.t) : gmap Z Meeting.t -> Prop :=
| reconciled_same : reconciled t t
| reconciled_flag pk o :
    t !! pk = Some o -> Meeting.recorded o = false ->
    reconciled t (<[pk := Meeting.set_recorded true o]> t)
| reconciled_new pk o :
    t !! pk = None ->
    (forall pk' o', t !! pk' = Some o' ->
                    Meeting.internal_meeting_id o' <> Meeting.internal_meeting_id o) ->
    Meeting.recording_available o = false ->
    reconciled t (<[pk := o]> t).


(** What one [get_attendee] does to the table of participants: nothing,
    or a row is added for a name and meeting that had none. *)
Inductive sighted (t : gmap Z BBBUser.t) : gmap Z BBBUser.t -> Prop :=
| sighted_same : sighted t t
| sighted_new u :
    (forall pk' u', t !! pk' = Some u' ->
                    BBBUser.full_name u' = BBBUser.full_name u ->
                    BBBUser.meeting_id u' <> BBBUser.meeting_id u) ->
    sighted t (<[Orm.next_id t := u]> t).

(** The rows of a participant, and their number. *)
Definition is_participant (fullName : string) (sessionId : Z) (u : BBBUser.t) : Prop :=
  BBBUser.full_name u = fullName /\ BBBUser.meeting_id u = sessionId.

Definition at_most_one_row (fullName : string) (sessionId : Z)
    (t : gmap Z BBBUser.t) : Prop :=
  forall pk1 pk2 u1 u2,
    t !! pk1 = Some u1 -> t !! pk2 = Some u2 ->
    is_participant fullName sessionId u1 ->
    is_participant fullName sessionId u2 -> pk1 = pk2.

Definition exactly_one_row (fullName : string) (sessionId : Z)
    (t : gmap Z BBBUser.t) : Prop :=
  exists pk u,
    t !! pk = Some u /\ is_participant fullName sessionId u
    /\ forall pk' u', t !! pk' = Some u' ->
                      is_participant fullName sessionId u' -> pk' = pk.

(** The attendees seen, each with the key of its meeting, processed in
    turn by [get_attendee]. *)
Definition sightings (env : environment) (l : list (Dom.node * Z))
    (html_message_error message_error : string) : M unit :=
  for_each l (fun sighting : Dom.node * Z =>
                get_attendee env sighting.1 sighting.2
                             html_message_error message_error).

(** What one [get_recording] for the internal id [key] does to the table
    of meetings: nothing, or the recording of a meeting with that internal
    id is set, which makes it available. *)
Inductive recording_found (key : string) (t : gmap Z Meeting.t)
    : gmap Z Meeting.t -> Prop :=
| recording_found_none : recording_found key t t
| recording_found_set pk o url thumbnail :
    t !! pk = Some o -> Meeting.internal_meeting_id o = key ->
    recording_found key t (<[pk := Meeting.set_recording url thumbnail o]> t).

(** The internal id is the identity of a meeting. *)
Definition unique_internal_ids (t : gmap Z Meeting.t) : Prop :=
  forall pk1 pk2 o1 o2,
    t !! pk1 = Some o1 -> t !! pk2 = Some o2 ->
    Meeting.internal_meeting_id o1 = Meeting.internal_meeting_id o2 -> pk1 = pk2.

(** The available recordings of [t] are those of [t'] too, URLs included. *)
Definition availability_kept (t t' : gmap Z Meeting.t) : Prop :=
  forall pk o,
    t !! pk = Some o -> Meeting.recording_available o = true ->
    exists o', t' !! pk = Some o'
               /\ Meeting.recording_available o' = true
               /\ Meeting.recording_url o' = Meeting.recording_url o
               /\ Meeting.thumbnail_url o' = Meeting.thumbnail_url o.

(** A stage is safe when it keeps the internal ids unique and the
    available recordings as they are. *)
Definition safe (t t' : gmap Z Meeting.t) : Prop :=
  unique_internal_ids t -> unique_internal_ids t' /\ availability_kept t t'.

(** The table during the loop of the poller, against the table [t0] the
    meetings to check were selected from: same keys, same internal ids,
    and the rows whose recording was available in [t0] untouched. *)
Definition polled (t0 t : gmap Z Meeting.t) : Prop :=
  (forall pk, t0 !! pk = None -> t !! pk = None)
  /\ forall pk o,
       t0 !! pk = Some o ->
       exists o', t !! pk = Some o'
                  /\ Meeting.internal_meeting_id o' = Meeting.internal_meeting_id o
                  /\ (Meeting.recording_available o = true -> o' = o).

(** The row of a participant after the Identity Matcher has looked for a
    Pod account for it. *)
Definition matched (env : environment) (accounts : gmap Z User.t)
    (u : BBBUser.t) : BBBUser.t :=
  match pod_user_matching env (BBBUser.full_name u) accounts with
  | Some (uid, podUser) => BBBUser.set_link (User.username podUser) uid u
  | None => u
  end.

(** ** Scenarios

    Concrete settings, server answers and tables, used to run the command. *)

Module Scenario.

(** The default of the VIDEO_ALLOWED_EXTENSIONS setting. *)
Definition default_extensions : list string :=
  ["3gp"; "avi"; "divx"; "flv"; "m2p"; "m4v"; "mkv"; "mov"; "mp4"; "mpeg";
   "mpg"; "mts"; "wmv"; "mp3"; "ogg"; "wav"; "wma"; "webm"; "ts"].

Definition str (e : exn) : string :=
  match e with
  | IndexError => "list index out of range"
  | AttributeError => "'NoneType' object has no attribute 'data'"
  | UnboundLocalError => "local variable referenced before assignment"
  | ParserError text => "Unknown string format: " +:+ text
  | DoesNotExist model => model +:+ " matching query does not exist"
  | OSError path => "No such file or directory: " +:+ path
  | ConnectionError url => "Max retries exceeded with url: " +:+ url
  | ExpatError => "syntax error: line 1, column 0"
  | EncodeError _ => "encoding could not be started"
  end.

(** The default settings, a server that answers the discovery request with
    [discovery] and every recording request with [recordings], a drop
    directory [drop], and a file system on which [rename] tells whether a
    source file can be moved.  The text of an answer is left out: the
    parser is given the URL and picks the document. *)
Definition env (format : string) (discovery recordings : result Dom.node)
    (now : Z) (drop : option dirtree) (rename : string -> result unit)
    : environment :=
  mkEnv "/data/bbb-recorder/media/" "https://bbb.univ.fr/" "secret" 1 format
        default_extensions
        (fun _ _ => Ok tt) "/data/www/media"
        (fun text => "sha1") (fun text => text)
        (fun _ url => Ok url)
        (fun url => if Str.contains url "getMeetings" then discovery
                    else recordings)
        (fun _ => "<response/>")
        (fun text => if String.eqb text "yesterday" then Raise (ParserError text)
                     else Ok 1587479398309000)
        now "2020-04-21 16:29:58.309000" drop
        (fun _ _ => Ok tt) (fun _ src _ => rename src)
        (fun _ name => "videos/bbb/" +:+ name)
        str (fun _ => "Traceback (most recent call last)").

Definition el (tag text : string) : Dom.node := Dom.Element tag [Dom.Text text].

Definition response (children : list Dom.node) : Dom.node :=
  Dom.Document (Dom.Element "response" (el "returncode" "SUCCESS" :: children)).

Definition attendee (fullName role : string) : Dom.node :=
  Dom.Element "attendee"
    [el "userID" "w_x"; el "fullName" fullName; el "role" role].

Definition meeting (internalMeetingID recording : string)
    (attendees : list Dom.node) : Dom.node :=
  Dom.Element "meeting"
    [el "meetingName" "Cours"; el "meetingID" "ext-1";
     el "internalMeetingID" internalMeetingID;
     el "createDate" "Tue Apr 21 16:29:58 CEST 2020";
     el "recording" recording;
     Dom.Element "attendees" attendees].

(** A meeting element without [internalMeetingID]. *)
Definition meeting_without_internal_id : Dom.node :=
  Dom.Element "meeting"
    [el "meetingName" "Cours"; el "meetingID" "ext-1";
     el "createDate" "Tue Apr 21 16:29:58 CEST 2020";
     el "recording" "true"].

Definition playback (url image : string) : Dom.node :=
  Dom.Element "playback"
    [Dom.Element "format"
       [el "type" "presentation"; el "url" url;
        Dom.Element "preview" [Dom.Element "images" [el "image" image]]]].

Definition recording (internalMeetingID : string) (playbacks : list Dom.node)
    : Dom.node :=
  Dom.Element "recording"
    (el "recordID" "r" :: el "internalMeetingID" internalMeetingID :: playbacks).

Definition now : Z := 1587480000000000.

Definition session (internal_meeting_id : string) (recorded available : bool)
    (url : option string) : Meeting.t :=
  Meeting.mk "ext-1" internal_meeting_id "Cours" 1587479398309000 0
             recorded available url url None.

Definition empty : pod := mkPod ∅ ∅ ∅ {[ 1 ]} ∅ [].

Definition with_sessions (t : gmap Z Meeting.t) : pod :=
  mkPod t ∅ ∅ {[ 1 ]} ∅ [].

Definition jean_dupont : User.t := User.mk "jdupont" "Jean" "Dupont".

Definition participant (fullName : string) : BBBUser.t :=
  BBBUser.mk fullName "MODERATOR" 1 None None.

(** One account, Jean Dupont, and three unresolved participants. *)
Definition three_participants : pod :=
  mkPod ∅
        (<[1 := participant "Dupont"]>
           (<[2 := participant "Jean Dupont"]>
              (<[3 := participant "Dr Jean Dupont"]> ∅)))
        {[ 7 := jean_dupont ]} {[ 1 ]} ∅ [].

Definition idle : result Dom.node := Ok (response []).

Definition can_rename (src : string) : result unit := Ok tt.

End Scenario.

(** The runs of the scenarios. *)

Module Run.
Import Scenario.

(** Matching: the server is idle, the drop directory is missing. *)
Definition matching_env : environment :=
  env "first_name last_name" idle idle now None can_rename.

(** Discovery answers with a meeting that has no internal id, followed by
    a well-formed one. *)
Definition discovery_env : environment :=
  env "first_name last_name"
      (Ok (response [meeting_without_internal_id;
                     meeting "M2" "true" [attendee "Ana Gomez" "MODERATOR"]]))
      idle now None can_rename.

(** The server cannot be reached, and of the two files of the drop
    directory the first cannot be moved. *)
Definition ingestion_env : environment :=
  env "first_name last_name"
      (Raise (ConnectionError "https://bbb.univ.fr/")) idle now
      (Some (Dir [] ["a.mp4"; "b.mp4"]))
      (fun src => if String.eqb src "/data/bbb-recorder/media/a.mp4"
                  then Raise (OSError src) else Ok tt).

(** The same, on a file system where both files can be moved. *)
Definition ingestion_env_ok : environment :=
  env "first_name last_name"
      (Raise (ConnectionError "https://bbb.univ.fr/")) idle now
      (Some (Dir [] ["a.mp4"; "b.mp4"])) can_rename.

Definition two_sessions : pod :=
  with_sessions (<[1 := session "a" false false None]>
                   (<[2 := session "b" false false None]> ∅)).

(** The recording of M1 has two playback entries. *)
Definition two_playbacks : Dom.node :=
  recording "M1"
    [playback "https://bbb.univ.fr/playback/1" "thumb1.png";
     playback "https://bbb.univ.fr/playback/2" "thumb2.png"].

Definition recording_env : environment :=
  env "first_name last_name" idle (Ok (response [two_playbacks])) now None
      can_rename.

Definition recorded_session : pod :=
  with_sessions {[ 1 := session "M1" true false None ]}.

(** M1 is known, recorded and available; discovery reports it again, not
    recorded, and its recording is offered again under another URL. *)
Definition available_session : pod :=
  with_sessions {[ 1 := session "M1" true true (Some "https://bbb.univ.fr/playback/0") ]}.

Definition again_env : environment :=
  env "first_name last_name"
      (Ok (response [meeting "M1" "false" [attendee "Ana Gomez" "MODERATOR"]]))
      (Ok (response [two_playbacks])) now None can_rename.

Definition marie : Dom.node := attendee "Marie Curie" "MODERATOR".

End Run.

(** A computation keeps a property of the table of participants. *)
Definition keeps (P : gmap Z BBBUser.t -> Prop) {A : Type} (c : M A) : Prop :=
  forall s, P (bbb_users s) -> P (bbb_users (c s).2).

(** ** Invariants of the whole database *)

(** A computation preserves a property of the database and the trace,
    whether it returns or raises. *)
Definition preserves (Inv : pod -> Prop) {A : Type} (c : M A) : Prop :=
  forall s, Inv s -> Inv (c s).2.


(** A playback element with a readable [url] and a readable [image]. *)
Definition playback_is_readable (playback : Dom.node) : Prop :=
  exists url image,
    Dom.data_of "url" playback = Ok url /\ Dom.data_of "image" playback = Ok image.

(** What this command never changes in the row of a meeting: its ids, its
    name, its date, its encoding step and its owner; and the two flags
    only go from false to true. *)
Definition same_meeting (o o' : Meeting.t) : Prop :=
  Meeting.meeting_id o' = Meeting.meeting_id o
  /\ Meeting.internal_meeting_id o' = Meeting.internal_meeting_id o
  /\ Meeting.meeting_name o' = Meeting.meeting_name o
  /\ Meeting.session_date o' = Meeting.session_date o
  /\ Meeting.encoding_step o' = Meeting.encoding_step o
  /\ Meeting.encoded_by_id o' = Meeting.encoded_by_id o
  /\ (Meeting.recorded o = true -> Meeting.recorded o' = true)
  /\ (Meeting.recording_available o = true -> Meeting.recording_available o' = true).

Definition meetings_persist (t t' : gmap Z Meeting.t) : Prop :=
  forall pk o, t !! pk = Some o -> exists o', t' !! pk = Some o' /\ same_meeting o o'.

(** A recording that is available has its URL and its thumbnail. *)
Definition available_has_urls (t : gmap Z Meeting.t) : Prop :=
  forall pk o,
    t !! pk = Some o -> Meeting.recording_available o = true ->
    is_Some (Meeting.recording_url o) /\ is_Some (Meeting.thumbnail_url o).

(** The event of the report to the administrators. *)
Definition is_report (e : event) : bool :=
  match e with
  | Mail_admins _ _ => true
  | _ => false
  end.

(** The stages of [handle] before the report: what [handle] does for the
    task [main] up to the test of [message_error]. *)
Definition stages (env : environment) : M (string * string) :=
  '(html_message_error, message_error) ←
    get_bbb_meetings_by_xml env EmptyString EmptyString;
  '(html_message_error, message_error) ←
    get_bbb_meetings_recorded env html_message_error message_error;
  '(html_message_error, message_error) ←
    matching_bbb_pod_user env html_message_error message_error;
  for_fold
    (match drop_directory env with
     | Some tree => os_walk (DEFAULT_BBB_PATH env) tree
     | None => []
     end)
    (fun '(root, files) '(html_message_error, message_error) =>
       process_directory env files root html_message_error message_error)
    (html_message_error, message_error).

(** The test of [process_directory] on a file name: the text after its
    last dot is an allowed extension, and is not the whole name. *)
Definition is_video_file (env : environment) (filename : string) : bool :=
  let extension := Str.last (Str.split "." filename) in
  is_in extension (VIDEO_ALLOWED_EXTENSIONS env)
  && negb (String.eqb filename extension).
(** * Properties *)

(** ** Querysets *)

Lemma elem_of_filter {A : Type} (p : A -> bool) (table : gmap Z A) pk a :
  (pk, a) ∈ Orm.filter p table <-> table !! pk = Some a /\ p a = true.
Proof.
  unfold Orm.filter.
  rewrite list_elem_of_In, filter_In, <- list_elem_of_In, elem_of_map_to_list.
  reflexivity.
Qed.

Lemma NoDup_filter_keys {A : Type} (p : A -> bool) (table : gmap Z A) :
  NoDup (Orm.filter p table).*1.
Proof.
  unfold Orm.filter.
  generalize (NoDup_fst_map_to_list table).
  induction (map_to_list table) as [|x l IH]; simpl; intros Hnd; [constructor|].
  apply NoDup_cons in Hnd as [Hx Hl].
  destruct (p x.2); simpl; auto.
  apply NoDup_cons. split; auto.
  intros Hin. apply Hx.
  apply list_elem_of_fmap in Hin as (y & -> & Hy).
  apply list_elem_of_fmap. exists y. split; [reflexivity|].
  apply list_elem_of_In. apply list_elem_of_In in Hy.
  apply filter_In in Hy. tauto.
Qed.

#[export] Instance id_le_total {A : Type} : Total (@Orm.id_le A).
Proof. intros x y. unfold Orm.id_le. lia. Qed.

#[export] Instance id_le_trans {A : Type} : Transitive (@Orm.id_le A).
Proof. intros x y z. unfold Orm.id_le. lia. Qed.

Lemma order_by_id_perm {A : Type} (rows : list (Z * A)) :
  Orm.order_by_id rows ≡ₚ rows.
Proof. apply merge_sort_Permutation. Qed.

Lemma order_by_id_desc_perm {A : Type} (rows : list (Z * A)) :
  Orm.order_by_id_desc rows ≡ₚ rows.
Proof. apply merge_sort_Permutation. Qed.

Lemma elem_of_order_by_id {A : Type} (rows : list (Z * A)) x :
  x ∈ Orm.order_by_id rows <-> x ∈ rows.
Proof. by rewrite order_by_id_perm. Qed.

(** Rows sorted by key, with no key twice, are strictly increasing. *)
Lemma strictly_sorted {A : Type} (rows : list (Z * A)) :
  StronglySorted Orm.id_le rows -> NoDup rows.*1 ->
  StronglySorted (fun x y => x.1 < y.1) rows.
Proof.
  induction 1 as [|x l Hl IH Hx]; simpl; intros Hnd; constructor.
  - apply IH. by apply NoDup_cons in Hnd as [_ ?].
  - apply NoDup_cons in Hnd as [Hnot _].
    apply Forall_forall. intros y Hy.
    rewrite Forall_forall in Hx. specialize (Hx y Hy). unfold Orm.id_le in Hx.
    destruct (decide (x.1 = y.1)) as [Heq|]; [|lia].
    exfalso. apply Hnot. rewrite Heq. apply list_elem_of_fmap. eauto.
Qed.

Lemma order_by_id_sorted {A : Type} (rows : list (Z * A)) :
  NoDup rows.*1 -> StronglySorted (fun x y => x.1 < y.1) (Orm.order_by_id rows).
Proof.
  intros Hnd. apply strictly_sorted.
  - apply StronglySorted_merge_sort; apply _.
  - by rewrite order_by_id_perm.
Qed.

(** [first()] gives a row of the queryset, the one of least key. *)
Lemma first_Some {A : Type} (rows : list (Z * A)) x :
  Orm.first rows = Some x -> x ∈ rows.
Proof.
  unfold Orm.first. intros H. apply elem_of_order_by_id.
  destruct (Orm.order_by_id rows); simplify_eq/=. left.
Qed.

Lemma first_None {A : Type} (rows : list (Z * A)) :
  Orm.first rows = None -> rows = [].
Proof.
  unfold Orm.first. intros H. apply Permutation_nil_r.
  rewrite <- (order_by_id_perm rows).
  by destruct (Orm.order_by_id rows).
Qed.

Lemma first_least {A : Type} (rows : list (Z * A)) x y :
  Orm.first rows = Some x -> y ∈ rows -> x.1 ≤ y.1.
Proof.
  unfold Orm.first. intros H Hy.
  apply elem_of_order_by_id in Hy.
  pose proof (StronglySorted_merge_sort Orm.id_le rows) as Hs.
  unfold Orm.order_by_id in *.
  destruct (merge_sort Orm.id_le rows) as [|z l]; simplify_eq/=.
  apply StronglySorted_inv in Hs as [_ Hall].
  apply elem_of_cons in Hy as [->|Hy]; [lia|].
  rewrite Forall_forall in Hall. apply (Hall y Hy).
Qed.

(** The key of a new row is not in the table. *)
Lemma next_id_above {A : Type} (table : gmap Z A) pk a :
  table !! pk = Some a -> pk < Orm.next_id table.
Proof.
  intros H. apply elem_of_map_to_list in H.
  unfold Orm.next_id.
  assert (pk ∈ (map_to_list table).*1) as Hin
    by (apply list_elem_of_fmap; exists (pk, a); auto).
  clear H. induction Hin as [k l|k y l Hin IH]; simpl in *; lia.
Qed.

Lemma next_id_fresh {A : Type} (table : gmap Z A) :
  table !! Orm.next_id table = None.
Proof.
  destruct (table !! Orm.next_id table) eqn:E; [|reflexivity].
  apply next_id_above in E. lia.
Qed.

(** ** The selection of the Recording Poller *)

Lemma elem_of_meetings_to_check (now : Z) (table : gmap Z Meeting.t) pk m :
  (pk, m) ∈ meetings_to_check now table <->
  table !! pk = Some m
  /\ Meeting.recorded m = true
  /\ Meeting.recording_available m = false
  /\ now - timedelta_days 4 ≤ Meeting.session_date m.
Proof.
  unfold meetings_to_check.
  rewrite elem_of_order_by_id, elem_of_filter.
  rewrite !andb_true_iff, negb_true_iff, Z.leb_le. tauto.
Qed.

(** C6: the meetings selected for a recording check are exactly the rows
    with [recorded = true], [recording_available = false] and a
    [session_date] not older than four days before now; a row whose
    [session_date] is strictly older is never selected, whatever its
    [recorded] flag; and the selection is in increasing order of the
    primary key, the order in which the rows were created. *)
Theorem poller_selection (now : Z) (table : gmap Z Meeting.t) :
  timedelta_days 4 = 4 * 24 * 3600 * 1000000
  /\ (forall pk m,
        (pk, m) ∈ meetings_to_check now table <->
        table !! pk = Some m
        /\ Meeting.recorded m = true
        /\ Meeting.recording_available m = false
        /\ now - timedelta_days 4 ≤ Meeting.session_date m)
  /\ (forall pk m,
        Meeting.session_date m < now - timedelta_days 4 ->
        (pk, m) ∉ meetings_to_check now table)
  /\ StronglySorted (fun x y => x.1 < y.1) (meetings_to_check now table).
Proof.
  split; [reflexivity|]. split; [apply elem_of_meetings_to_check|]. split.
  - intros pk m Hold Hin. apply elem_of_meetings_to_check in Hin. lia.
  - apply order_by_id_sorted, NoDup_filter_keys.
Qed.

(** ** The files the ingestor skips *)

Lemma startswith_dot (c : ascii) (s : string) :
  Str.startswith (String c s) "." = Ascii.eqb c ".".
Proof.
  cbn [Str.startswith]. destruct s; apply andb_true_r.
Qed.

Lemma split_without_dot (s : string) :
  Str.contains s "." = false -> Str.split "." s = [s].
Proof.
  induction s as [|c s IH]; [reflexivity|].
  cbn [Str.contains Str.split]. rewrite startswith_dot.
  intros H. apply orb_false_iff in H as [Hc Hs].
  rewrite Hc, (IH Hs). reflexivity.
Qed.

Lemma is_own_extension (filename : string) :
  Str.contains filename "." = false ->
  Str.last (Str.split "." filename) = filename.
Proof. intros H. by rewrite split_without_dot. Qed.

(** C10: a file whose name has no dot is its own extension token, and
    [process_directory] passes over it, in the allow-list or not: the
    files after it are processed as if it were not there, and alone it
    leaves the database and the trace as they were (no meeting is looked
    up, no video is created, nothing is moved). *)
Theorem file_without_dot_is_skipped (env : environment) (filename root : string)
    (files : list string) (html_message_error message_error : string) (s : pod) :
  Str.contains filename "." = false ->
  process_directory env (filename :: files) root
                    html_message_error message_error s
  = process_directory env files root html_message_error message_error s
  /\ process_directory env [filename] root html_message_error message_error s
     = (Ok (html_message_error, message_error), s).
Proof.
  intros Hdot. unfold process_directory. cbn [for_fold].
  rewrite (is_own_extension _ Hdot), String.eqb_refl, andb_false_r.
  split; reflexivity.
Qed.

Lemma file_without_dot_is_skipped_witness :
  let env :=
    mkEnv "/data/bbb-recorder/media/" "https://bbb.univ.fr/" EmptyString 1
          "first_name last_name" ["mp4"; "webm"] (fun _ _ => Ok tt) "/media"
          (fun s => s) (fun s => s) (fun _ _ => Ok EmptyString)
          (fun _ => Raise ExpatError) (fun _ => EmptyString)
          (fun _ => Ok 0) 0 EmptyString None
          (fun _ _ => Ok tt) (fun _ _ _ => Ok tt) (fun _ f => f)
          (fun _ => EmptyString) (fun _ => EmptyString) in
  let s := mkPod ∅ ∅ ∅ ∅ ∅ [] in
  is_in "mp4" (VIDEO_ALLOWED_EXTENSIONS env) = true
  /\ process_directory env ["mp4"] "/data/bbb-recorder/media/"
                       EmptyString EmptyString s
     = (Ok (EmptyString, EmptyString), s).
Proof.
  intros env s. split; [reflexivity|].
  apply (file_without_dot_is_skipped env "mp4" "/data/bbb-recorder/media/"
           [] EmptyString EmptyString s).
  reflexivity.
Defined.

(** ** Loops and invariants *)

Lemma for_each_keeps {A B : Type} (Inv : pod -> Prop) (l : list A) (f : A -> M B) :
  (forall x s, x ∈ l -> Inv s -> Inv (f x s).2) ->
  forall s, Inv s -> Inv (for_each l f s).2.
Proof.
  induction l as [|x l IH]; intros Hf s Hs; [exact Hs|].
  cbn [for_each]. unfold mbind, M_bind.
  pose proof (Hf x s ltac:(left) Hs) as Hx.
  destruct (f x s) as [[b|e] s']; simpl in *; [|exact Hx].
  apply IH; [|exact Hx]. intros y s'' Hy. apply Hf. by right.
Qed.

Lemma for_fold_keeps {A B : Type} (Inv : pod -> Prop) (l : list A)
    (f : A -> B -> M B) :
  (forall x acc s, x ∈ l -> Inv s -> Inv (f x acc s).2) ->
  forall acc s, Inv s -> Inv (for_fold l f acc s).2.
Proof.
  induction l as [|x l IH]; intros Hf acc s Hs; [exact Hs|].
  cbn [for_fold]. unfold mbind, M_bind.
  pose proof (Hf x acc s ltac:(left) Hs) as Hx.
  destruct (f x acc s) as [[b|e] s']; simpl in *; [|exact Hx].
  apply IH; [|exact Hx]. intros y acc' s'' Hy. apply Hf. by right.
Qed.

(** Symbolic execution of a computation: the monad is unfolded and every
    branch of the code is taken. *)
Ltac unfold_monad :=
  unfold try_except, mbind, M_bind, mret, M_ret, lift, read, call, log,
    Meeting_first, Meeting_save, Meeting_create, BBBUser_first, BBBUser_save,
    BBBUser_create, Video_create, User_get, Type_get,
    with_meetings, with_bbb_users, with_videos in *.

Ltac exec := unfold_monad; repeat case_match; simplify_eq/=.

(** ** The Session Reconciler *)

Lemma get_attendee_meetings env attendee idActualMeeting h m s :
  meetings (get_attendee env attendee idActualMeeting h m s).2 = meetings s.
Proof. unfold get_attendee. exec; reflexivity. Qed.

Lemma get_meeting_reconciled env meeting h m s :
  reconciled (meetings s) (meetings (get_meeting env meeting h m s).2).
Proof.
  unfold get_meeting.
  destruct (Dom.data_of "meetingName" meeting) as [meetingName|] eqn:E1;
    [|exec; constructor].
  destruct (Dom.data_of "meetingID" meeting) as [meetingID|] eqn:E2;
    [|exec; constructor].
  destruct (Dom.data_of "internalMeetingID" meeting) as [key|] eqn:E3;
    [|exec; constructor].
  destruct (Dom.data_of "createDate" meeting) as [date|] eqn:E4;
    [|exec; constructor].
  destruct (Dom.data_of "recording" meeting) as [recording|] eqn:E5;
    [|exec; constructor].
  set (attendees := Dom.getElementsByTagName "attendee" meeting).
  assert (forall pk s1, meetings (for_each attendees
            (fun attendee => get_attendee env attendee pk h m) s1).2
          = meetings s1) as Hloop.
  { intros pk s1.
    apply (for_each_keeps (fun s' => meetings s' = meetings s1)); [|reflexivity].
    intros x s' _ <-. apply get_attendee_meetings. }
  unfold_monad. cbn [fst snd meetings].
  destruct (Orm.first _) as [[pk o]|] eqn:Efirst.
  - apply first_Some, elem_of_filter in Efirst as [Hpk _].
    destruct (negb (Meeting.recorded o) && String.eqb recording "true") eqn:Eflag.
    + apply andb_true_iff in Eflag as [Hrec _]. apply negb_true_iff in Hrec.
      match goal with |- context [for_each attendees ?f ?s1] =>
        specialize (Hloop pk s1); destruct (for_each attendees f s1) as [[[]|] s2]
      end; simpl in *; rewrite Hloop; by constructor.
    + match goal with |- context [for_each attendees ?f ?s1] =>
        specialize (Hloop pk s1); destruct (for_each attendees f s1) as [[[]|] s2]
      end; simpl in *; rewrite Hloop; by constructor.
  - apply first_None in Efirst.
    destruct (dateutil_parse env date) as [dateForSql|]; [|simpl; constructor].
    simpl.
    match goal with |- context [for_each attendees ?f ?s1] =>
      specialize (Hloop (Orm.next_id (meetings s)) s1);
      destruct (for_each attendees f s1) as [[[]|] s2]
    end; simpl in *; rewrite Hloop;
      (apply reconciled_new; [apply next_id_fresh| |reflexivity]);
      intros pk' o' Hpk' Heq;
      (assert ((pk', o') ∈ Orm.filter
                 (fun m0 => String.eqb (Meeting.internal_meeting_id m0) key)
                 (meetings s)) as Hin
         by (apply elem_of_filter; split; [done|]; by apply String.eqb_eq));
      rewrite Efirst in Hin; by apply elem_of_nil in Hin.
Qed.

Lemma discovery_reconciled env h m s :
  rtc reconciled (meetings s) (meetings (get_bbb_meetings_by_xml env h m s).2).
Proof.
  assert (forall l h' m' s1,
            rtc reconciled (meetings s) (meetings s1) ->
            rtc reconciled (meetings s)
              (meetings (for_each l (fun meeting => get_meeting env meeting h' m') s1).2))
    as Hloop.
  { intros l h' m'.
    apply (for_each_keeps (fun s' => rtc reconciled (meetings s) (meetings s'))).
    intros x s' _ Hs'. eapply rtc_r; [exact Hs'|]. apply get_meeting_reconciled. }
  unfold get_bbb_meetings_by_xml. unfold_monad. cbn [fst snd].
  destruct (requests_get env _ _) as [addr|]; [|simpl; constructor].
  destruct (parseString env addr) as [xmldoc|]; [|simpl; constructor].
  destruct (Dom.data_of "returncode" xmldoc) as [returncode|]; [|simpl; constructor].
  destruct (String.eqb returncode "FAILED"); simpl;
    match goal with |- context [for_each ?l (fun x => get_meeting env x ?h' ?m') ?s1] =>
      specialize (Hloop l h' m' s1 ltac:(simpl; constructor));
      destruct (for_each l (fun x => get_meeting env x h' m') s1) as [[[]|] s2]
    end; exact Hloop.
Qed.

Lemma reconciled_keeps_recorded t t' pk o :
  rtc reconciled t t' ->
  t !! pk = Some o -> Meeting.recorded o = true -> t' !! pk = Some o.
Proof.
  induction 1 as [t|t t1 t2 Hstep _ IH]; intros Hpk Hrec; [exact Hpk|].
  apply IH; [|exact Hrec].
  destruct Hstep as [|pk' o' Hpk' Hrec'|pk' o' Hpk' _ _]; [exact Hpk| |].
  - rewrite lookup_insert_ne; [exact Hpk|]. intros ->. congruence.
  - rewrite lookup_insert_ne; [exact Hpk|]. intros ->. congruence.
Qed.

(** C9: the reconciler never takes the [recorded] flag of a known meeting
    from true to false.  Whatever the discovery answer says (a meeting
    reported with [recording] "false" or any other text, a failed request,
    broken XML), a meeting whose [recorded] is true is, after
    [get_bbb_meetings_by_xml], the same row under the same key: the flag
    and all its other fields are unchanged. *)
Theorem recorded_flag_is_kept (env : environment)
    (html_message_error message_error : string) (s : pod)
    (pk : Z) (oMeeting : Meeting.t) :
  meetings s !! pk = Some oMeeting ->
  Meeting.recorded oMeeting = true ->
  meetings (get_bbb_meetings_by_xml env html_message_error message_error s).2 !! pk
  = Some oMeeting.
Proof.
  intros Hpk Hrec.
  eapply reconciled_keeps_recorded; eauto using discovery_reconciled.
Qed.

Lemma recorded_flag_is_kept_witness :
  meetings (get_bbb_meetings_by_xml Run.again_env EmptyString EmptyString
              Run.available_session).2 !! 1
  = Some (Scenario.session "M1" true true (Some "https://bbb.univ.fr/playback/0")).
Proof.
  apply (recorded_flag_is_kept Run.again_env EmptyString EmptyString
           Run.available_session 1).
  - reflexivity.
  - reflexivity.
Defined.

(** ** Participants *)

Lemma get_attendee_sighted env attendee idActualMeeting h m s :
  sighted (bbb_users s)
          (bbb_users (get_attendee env attendee idActualMeeting h m s).2).
Proof.
  unfold get_attendee. unfold_monad.
  destruct (Dom.data_of "fullName" attendee) as [fullName|]; [|simpl; constructor].
  destruct (Dom.data_of "role" attendee) as [role|]; [|simpl; constructor].
  destruct (String.eqb role "MODERATOR"); [|simpl; constructor].
  simpl. destruct (Orm.first _) as [[pk u]|] eqn:Efirst; simpl; [constructor|].
  apply first_None in Efirst.
  apply sighted_new. simpl. intros pk' u' Hpk' Hname Hmid.
  assert ((pk', u') ∈ @nil (Z * BBBUser.t)) as Hin; [|by apply elem_of_nil in Hin].
  rewrite <- Efirst. apply elem_of_filter. split; [done|].
  apply andb_true_iff. split; [by apply String.eqb_eq|by apply Z.eqb_eq].
Qed.

Lemma get_attendee_returns env attendee idActualMeeting h m s :
  exists r, (get_attendee env attendee idActualMeeting h m s).1 = Ok r.
Proof. unfold get_attendee. exec; eauto. Qed.

Lemma get_attendee_moderator env attendee idActualMeeting h m s fullName :
  Dom.data_of "fullName" attendee = Ok fullName ->
  Dom.data_of "role" attendee = Ok "MODERATOR" ->
  exists pk u,
    bbb_users (get_attendee env attendee idActualMeeting h m s).2 !! pk = Some u
    /\ is_participant fullName idActualMeeting u.
Proof.
  intros Hname Hrole. unfold get_attendee. unfold_monad.
  rewrite Hname, Hrole. simpl.
  destruct (Orm.first _) as [[pk u]|] eqn:Efirst; simpl.
  - apply first_Some, elem_of_filter in Efirst as [Hpk Hu].
    apply andb_true_iff in Hu as [Hn Hm].
    apply String.eqb_eq in Hn. apply Z.eqb_eq in Hm.
    exists pk, u. by repeat split.
  - eexists _, _. split; [apply lookup_insert_eq|]. by split.
Qed.

Lemma sighted_extends t t' pk u :
  sighted t t' -> t !! pk = Some u -> t' !! pk = Some u.
Proof.
  intros [|u' _] Hpk; [exact Hpk|].
  rewrite lookup_insert_ne; [exact Hpk|].
  intros <-. by rewrite next_id_fresh in Hpk.
Qed.

Lemma sighted_at_most_one fullName sessionId t t' :
  sighted t t' ->
  at_most_one_row fullName sessionId t -> at_most_one_row fullName sessionId t'.
Proof.
  intros [|u Hnew] Hone; [exact Hone|].
  intros pk1 pk2 u1 u2 H1 H2 [Hn1 Hm1] [Hn2 Hm2].
  rewrite lookup_insert in H1, H2.
  destruct (decide (Orm.next_id t = pk1)) as [<-|], (decide (Orm.next_id t = pk2)) as [<-|];
    simplify_eq/=; [reflexivity| | |by eapply Hone].
  - exfalso. eapply (Hnew pk2 u2); eauto; congruence.
  - exfalso. eapply (Hnew pk1 u1); eauto; congruence.
Qed.

Lemma sightings_spec env l h m fullName sessionId : forall s,
  at_most_one_row fullName sessionId (bbb_users s) ->
  let s' := (sightings env l h m s).2 in
  at_most_one_row fullName sessionId (bbb_users s')
  /\ (forall pk u, bbb_users s !! pk = Some u -> bbb_users s' !! pk = Some u)
  /\ (forall attendee,
        (attendee, sessionId) ∈ l ->
        Dom.data_of "fullName" attendee = Ok fullName ->
        Dom.data_of "role" attendee = Ok "MODERATOR" ->
        exists pk u, bbb_users s' !! pk = Some u
                     /\ is_participant fullName sessionId u).
Proof.
  unfold sightings.
  induction l as [|[a mid] l IH]; intros s Hone; cbn [for_each].
  - simpl. split; [exact Hone|]. split; [auto|].
    intros attendee Hin. by apply elem_of_nil in Hin.
  - unfold mbind, M_bind. cbn [fst snd].
    pose proof (get_attendee_sighted env a mid h m s) as Hstep.
    pose proof (get_attendee_moderator env a mid h m s fullName) as Hmod.
    destruct (get_attendee_returns env a mid h m s) as [r Hret].
    destruct (get_attendee env a mid h m s) as [res s1]. simpl in *. subst res.
    destruct (IH s1 (sighted_at_most_one _ _ _ _ Hstep Hone)) as (IH1 & IH2 & IH3).
    split; [exact IH1|]. split.
    + intros pk u Hpk. apply IH2. by eapply sighted_extends.
    + intros attendee Hin Hname Hrole.
      apply elem_of_cons in Hin as [Heq|Hin]; [|by eapply IH3].
      simplify_eq. destruct (Hmod Hname Hrole) as (pk & u & Hpk & Hu).
      exists pk, u. split; [by apply IH2|exact Hu].
Qed.

(** ** The Recording Poller *)

Lemma read_playbacks_state playbacks s : (read_playbacks playbacks s).2 = s.
Proof.
  unfold read_playbacks.
  apply (for_fold_keeps (fun s' => s' = s)); [|reflexivity].
  intros x acc s' _ ->. exec; reflexivity.
Qed.

Lemma get_recording_found env recording key h m s :
  recording_found key (meetings s)
                  (meetings (get_recording env recording key h m s).2).
Proof.
  unfold get_recording. unfold_monad.
  destruct (Dom.data_of "internalMeetingID" recording) as [k|]; [|simpl; constructor].
  destruct (String.eqb k key); [|simpl; constructor].
  cbn [fst snd].
  destruct (Orm.first _) as [[pk o]|] eqn:Efirst; [|simpl; constructor].
  apply first_Some, elem_of_filter in Efirst as [Hpk Hkey].
  apply String.eqb_eq in Hkey.
  match goal with |- context [read_playbacks ?l ?s1] =>
    pose proof (read_playbacks_state l s1) as Hpure;
    destruct (read_playbacks l s1) as [[[url thumbnail]|] s2]
  end; simpl in Hpure; subst s2; [|simpl; constructor].
  destruct (negb (String.eqb url EmptyString)); [|simpl; constructor].
  destruct thumbnail as [thumbnail|]; simpl; [|constructor].
  by apply recording_found_set.
Qed.

Lemma get_bbb_recording_by_xml_found env meeting_id key h m s :
  rtc (recording_found key) (meetings s)
      (meetings (get_bbb_recording_by_xml env meeting_id key h m s).2).
Proof.
  assert (forall l h' m' s1,
            rtc (recording_found key) (meetings s) (meetings s1) ->
            rtc (recording_found key) (meetings s)
              (meetings (for_each l
                 (fun recording => get_recording env recording key h' m') s1).2))
    as Hloop.
  { intros l h' m'.
    apply (for_each_keeps
             (fun s' => rtc (recording_found key) (meetings s) (meetings s'))).
    intros x s' _ Hs'. eapply rtc_r; [exact Hs'|]. apply get_recording_found. }
  unfold get_bbb_recording_by_xml. unfold_monad. cbn [fst snd].
  destruct (requests_get env _ _) as [addr|]; [|simpl; constructor].
  destruct (parseString env addr) as [xmldoc|]; [|simpl; constructor].
  destruct (Dom.data_of "returncode" xmldoc) as [returncode|]; [|simpl; constructor].
  destruct (String.eqb returncode "FAILED"); simpl;
    match goal with
    |- context [for_each ?l (fun x => get_recording env x key ?h' ?m') ?s1] =>
      specialize (Hloop l h' m' s1 ltac:(simpl; constructor));
      destruct (for_each l (fun x => get_recording env x key h' m') s1)
        as [[[]|] s2]
    end; exact Hloop.
Qed.

Lemma polled_refl t : polled t t.
Proof. split; [auto|]. intros pk o Hpk. exists o. auto. Qed.

Lemma polled_found t0 t t' key pk0 o0 :
  unique_internal_ids t0 ->
  t0 !! pk0 = Some o0 ->
  Meeting.internal_meeting_id o0 = key ->
  Meeting.recording_available o0 = false ->
  polled t0 t -> rtc (recording_found key) t t' -> polled t0 t'.
Proof.
  intros Huniq Hpk0 Hkey Hav Hpolled Hsteps.
  induction Hsteps as [t|t t1 t2 Hstep _ IH]; [exact Hpolled|].
  apply IH. clear IH. destruct Hstep as [|pk o url thumbnail Hpk Hk]; [exact Hpolled|].
  destruct Hpolled as [Hdom Hrows].
  assert (pk = pk0) as ->.
  { destruct (t0 !! pk) as [o1|] eqn:E1.
    - destruct (Hrows pk o1 E1) as (o' & Ho' & Hint & _).
      apply (Huniq pk pk0 o1 o0 E1 Hpk0). congruence.
    - apply Hdom in E1. congruence. }
  split.
  - intros pk' Hnone. rewrite lookup_insert_ne; [auto|]. congruence.
  - intros pk' o' Hpk'. destruct (decide (pk0 = pk')) as [<-|Hne].
    + rewrite lookup_insert_eq. simplify_eq.
      eexists. split; [reflexivity|]. split; [simpl; congruence|]. congruence.
    + rewrite lookup_insert_ne by done. by apply Hrows.
Qed.

Lemma polled_safe t0 t : polled t0 t -> safe t0 t.
Proof.
  intros [Hdom Hrows] Huniq. split.
  - intros pk1 pk2 o1 o2 H1 H2 Heq.
    destruct (t0 !! pk1) as [o1'|] eqn:E1; [|apply Hdom in E1; congruence].
    destruct (t0 !! pk2) as [o2'|] eqn:E2; [|apply Hdom in E2; congruence].
    destruct (Hrows _ _ E1) as (x1 & Hx1 & Hi1 & _).
    destruct (Hrows _ _ E2) as (x2 & Hx2 & Hi2 & _).
    apply (Huniq pk1 pk2 o1' o2' E1 E2). congruence.
  - intros pk o Hpk Hav. destruct (Hrows _ _ Hpk) as (o' & Ho' & _ & Hsame).
    exists o'. rewrite (Hsame Hav) in *. auto.
Qed.

Lemma get_bbb_meetings_recorded_polled env h m s :
  unique_internal_ids (meetings s) ->
  polled (meetings s) (meetings (get_bbb_meetings_recorded env h m s).2).
Proof.
  intros Huniq. unfold get_bbb_meetings_recorded.
  unfold try_except, mbind, M_bind, read. cbn [fst snd].
  set (selected := meetings_to_check (timezone_now env) (meetings s)).
  assert (forall acc s1,
            polled (meetings s) (meetings s1) ->
            polled (meetings s)
              (meetings (for_fold selected
                 (fun meeting '(h', m') =>
                    get_bbb_recording_by_xml env
                      (Meeting.meeting_id meeting.2)
                      (Meeting.internal_meeting_id meeting.2) h' m')
                 acc s1).2)) as Hloop.
  { apply (for_fold_keeps (fun s' => polled (meetings s) (meetings s'))).
    intros [pk o] [h' m'] s' Hin Hs'.
    apply elem_of_meetings_to_check in Hin as (Hpk & _ & Hav & _).
    eapply polled_found; eauto using get_bbb_recording_by_xml_found. }
  specialize (Hloop (h, m) s (polled_refl _)).
  destruct (for_fold selected _ (h, m) s) as [[r|e] s2]; exact Hloop.
Qed.

(** ** The table of meetings through a run *)

Lemma safe_refl t : safe t t.
Proof. intros Huniq. split; [exact Huniq|]. intros pk o Hpk Hav. eauto. Qed.

Lemma safe_trans t1 t2 t3 : safe t1 t2 -> safe t2 t3 -> safe t1 t3.
Proof.
  intros H12 H23 Huniq. destruct (H12 Huniq) as [Hu2 Hk12].
  destruct (H23 Hu2) as [Hu3 Hk23]. split; [exact Hu3|].
  intros pk o Hpk Hav.
  destruct (Hk12 pk o Hpk Hav) as (o2 & Hpk2 & Hav2 & Hurl2 & Hth2).
  destruct (Hk23 pk o2 Hpk2 Hav2) as (o3 & Hpk3 & Hav3 & Hurl3 & Hth3).
  exists o3. repeat split; congruence.
Qed.

Lemma reconciled_safe t t' : reconciled t t' -> safe t t'.
Proof.
  intros [|pk o Hpk Hrec|pk o Hnone Hfresh Hav] Huniq.
  - by apply safe_refl.
  - split.
    + intros pk1 pk2 o1 o2 H1 H2 Heq. rewrite lookup_insert in H1, H2.
      destruct (decide (pk = pk1)) as [<-|], (decide (pk = pk2)) as [<-|];
        simplify_eq/=; [reflexivity| | |].
      * by apply (Huniq pk pk2 o o2).
      * by apply (Huniq pk1 pk o1 o).
      * by apply (Huniq pk1 pk2 o1 o2).
    + intros pk1 o1 H1 Hav1. destruct (decide (pk = pk1)) as [<-|Hne].
      * rewrite lookup_insert_eq. simplify_eq. eexists. split; [reflexivity|].
        simpl. auto.
      * rewrite lookup_insert_ne by done. eauto.
  - split.
    + intros pk1 pk2 o1 o2 H1 H2 Heq. rewrite lookup_insert in H1, H2.
      destruct (decide (pk = pk1)) as [<-|], (decide (pk = pk2)) as [<-|];
        simplify_eq/=; [reflexivity| | |].
      * exfalso. by apply (Hfresh pk2 o2).
      * exfalso. by apply (Hfresh pk1 o1).
      * by apply (Huniq pk1 pk2 o1 o2).
    + intros pk1 o1 H1 Hav1. rewrite lookup_insert_ne; [eauto|].
      intros <-. congruence.
Qed.

Lemma reconciled_many_safe t t' : rtc reconciled t t' -> safe t t'.
Proof.
  induction 1 as [t|t t1 t2 Hstep _ IH]; [apply safe_refl|].
  eapply safe_trans; [by apply reconciled_safe|exact IH].
Qed.

Lemma matching_bbb_pod_user_meetings env h m s :
  meetings (matching_bbb_pod_user env h m s).2 = meetings s.
Proof.
  unfold matching_bbb_pod_user. unfold try_except, mbind, M_bind, read.
  cbn [fst snd].
  match goal with |- context [for_each ?l ?f s] =>
    assert (meetings (for_each l f s).2 = meetings s) as Hloop;
    [|destruct (for_each l f s) as [[[]|] s2]; exact Hloop]
  end.
  apply (for_each_keeps (fun s' => meetings s' = meetings s)); [|reflexivity].
  intros x s' _ <-. unfold match_bbb_user. exec; reflexivity.
Qed.

Lemma encode_file_exist_meetings env filename extension m h s :
  meetings (encode_file_exist env filename extension m h s).2 = meetings s.
Proof. unfold encode_file_exist. exec; reflexivity. Qed.

Lemma process_directory_meetings env files root h m s :
  meetings (process_directory env files root h m s).2 = meetings s.
Proof.
  unfold process_directory.
  apply (for_fold_keeps (fun s' => meetings s' = meetings s)); [|reflexivity].
  intros filename [h' m'] s' _ <-.
  destruct (negb _); [reflexivity|apply encode_file_exist_meetings].
Qed.

Lemma handle_safe env task s : safe (meetings s) (meetings (handle env task s).2).
Proof.
  unfold handle.
  destruct (negb (String.eqb task EmptyString) && is_in task valid_args);
    [|apply safe_refl].
  unfold mbind, M_bind.
  pose proof (reconciled_many_safe _ _
                (discovery_reconciled env EmptyString EmptyString s)) as H1.
  destruct (get_bbb_meetings_by_xml env EmptyString EmptyString s)
    as [[[h1 m1]|] s1]; [|exact H1].
  simpl in H1. eapply safe_trans; [exact H1|]. clear H1. intros Huniq.
  pose proof (polled_safe _ _ (get_bbb_meetings_recorded_polled env h1 m1 s1 Huniq)
                Huniq) as H2.
  destruct (get_bbb_meetings_recorded env h1 m1 s1) as [[[h2 m2]|] s2];
    [|exact H2].
  simpl in H2.
  pose proof (matching_bbb_pod_user_meetings env h2 m2 s2) as H3.
  destruct (matching_bbb_pod_user env h2 m2 s2) as [[[h3 m3]|] s3];
    simpl in H3; [|cbn [fst snd]; by rewrite H3].
  match goal with |- context [for_fold ?l ?f ?acc s3] =>
    pose proof (for_fold_keeps (fun s' => meetings s' = meetings s3) l f) as H4;
    specialize (H4 ltac:(intros [root files] [h' m'] s' _ <-;
                         apply process_directory_meetings) acc s3 eq_refl);
    destruct (for_fold l f acc s3) as [[[h4 m4]|] s4]
  end; simpl in H4; cbn [fst snd].
  - destruct (negb (String.eqb m4 EmptyString)); unfold log, mret, M_ret;
      cbn [fst snd meetings]; rewrite H4, H3; exact H2.
  - rewrite H4, H3. exact H2.
Qed.

Lemma runs_safe envs : forall s, safe (meetings s) (meetings (runs envs s)).
Proof.
  unfold runs.
  induction envs as [|env envs IH]; intros s; [apply safe_refl|].
  simpl. eapply safe_trans; [apply handle_safe|apply IH].
Qed.

(** C5: availability of a recording is monotonic.  With unique internal
    ids, a meeting whose [recording_available] is true keeps, through any
    sequence of runs (complete or interrupted by an exception),
    [recording_available = true] and the [recording_url] and
    [thumbnail_url] it had; the poller does not select it, at any date;
    the one write to these fields, in [get_recording], sets
    [recording_available] to true; and the internal ids are still unique
    after the runs. *)
Theorem recording_availability_is_monotonic (envs : list environment) (s : pod)
    (pk : Z) (oMeeting : Meeting.t) :
  unique_internal_ids (meetings s) ->
  meetings s !! pk = Some oMeeting ->
  Meeting.recording_available oMeeting = true ->
  (exists o',
      meetings (runs envs s) !! pk = Some o'
      /\ Meeting.recording_available o' = true
      /\ Meeting.recording_url o' = Meeting.recording_url oMeeting
      /\ Meeting.thumbnail_url o' = Meeting.thumbnail_url oMeeting)
  /\ (forall now, (pk, oMeeting) ∉ meetings_to_check now (meetings s))
  /\ (forall url thumbnail o,
        Meeting.recording_available (Meeting.set_recording url thumbnail o) = true)
  /\ unique_internal_ids (meetings (runs envs s)).
Proof.
  intros Huniq Hpk Hav. destruct (runs_safe envs s Huniq) as [Huniq' Hkept].
  split; [|split; [|split]].
  - by apply Hkept.
  - intros now Hin. apply elem_of_meetings_to_check in Hin. intuition congruence.
  - reflexivity.
  - exact Huniq'.
Qed.

Lemma recording_availability_is_monotonic_witness :
  exists o',
    meetings (runs [Run.again_env; Run.again_env] Run.available_session) !! 1
    = Some o'
    /\ Meeting.recording_available o' = true
    /\ Meeting.recording_url o' = Some "https://bbb.univ.fr/playback/0"
    /\ Meeting.thumbnail_url o' = Some "https://bbb.univ.fr/playback/0".
Proof.
  apply (recording_availability_is_monotonic [Run.again_env; Run.again_env]
           Run.available_session 1
           (Scenario.session "M1" true true
              (Some "https://bbb.univ.fr/playback/0"))).
  - intros pk1 pk2 o1 o2 H1 H2 _. simpl in H1, H2.
    apply lookup_singleton_Some in H1 as [<- _].
    apply lookup_singleton_Some in H2 as [<- _]. reflexivity.
  - reflexivity.
  - reflexivity.
Defined.

(** ** The Identity Matcher *)

Lemma match_bbb_user_spec env row s :
  match_bbb_user env row s
  = (Ok tt,
     match pod_user_matching env (BBBUser.full_name row.2) (users s) with
     | Some _ => with_bbb_users (insert row.1 (matched env (users s) row.2)) s
     | None => s
     end).
Proof.
  unfold match_bbb_user, matched. unfold_monad. cbn [fst snd].
  destruct (pod_user_matching env _ _) as [[uid podUser]|]; reflexivity.
Qed.

Lemma match_loop_others env rows : forall s pk,
  pk ∉ rows.*1 ->
  bbb_users (for_each rows (match_bbb_user env) s).2 !! pk = bbb_users s !! pk
  /\ users (for_each rows (match_bbb_user env) s).2 = users s.
Proof.
  induction rows as [|row rows IH]; intros s pk Hpk; [done|].
  cbn [for_each]. unfold mbind, M_bind. rewrite match_bbb_user_spec.
  rewrite fmap_cons in Hpk. apply not_elem_of_cons in Hpk as [Hne Hpk].
  destruct (IH (match pod_user_matching env (BBBUser.full_name row.2) (users s) with
                | Some _ => with_bbb_users
                              (insert row.1 (matched env (users s) row.2)) s
                | None => s
                end) pk Hpk) as [-> ->].
  destruct (pod_user_matching env _ _); simpl; [|done].
  by rewrite lookup_insert_ne.
Qed.

Lemma match_loop_links env rows : forall s,
  NoDup rows.*1 ->
  (forall pk u, (pk, u) ∈ rows -> bbb_users s !! pk = Some u) ->
  forall pk u, (pk, u) ∈ rows ->
  bbb_users (for_each rows (match_bbb_user env) s).2 !! pk
  = Some (matched env (users s) u).
Proof.
  induction rows as [|[pk0 u0] rows IH]; intros s Hnd Hrows pk u Hin.
  { by apply elem_of_nil in Hin. }
  rewrite fmap_cons in Hnd. apply NoDup_cons in Hnd as [Hpk0 Hnd].
  cbn [for_each]. unfold mbind, M_bind. rewrite match_bbb_user_spec.
  set (s1 := match pod_user_matching env _ (users s) with
             | Some _ => _ | None => s end).
  assert (users s1 = users s) as Husers
    by (subst s1; by destruct (pod_user_matching env _ _)).
  assert (bbb_users s1 !! pk0 = Some (matched env (users s) u0)) as Hpk0'.
  { subst s1. unfold matched. cbn [fst snd].
    destruct (pod_user_matching env _ _) as [[uid podUser]|]; simpl.
    - apply lookup_insert_eq.
    - apply Hrows. left. }
  assert (forall pk' u', (pk', u') ∈ rows -> bbb_users s1 !! pk' = Some u') as Hrest.
  { intros pk' u' Hin'.
    assert (pk' <> pk0) as Hne.
    { intros ->. apply Hpk0. apply list_elem_of_fmap. by exists (pk0, u'). }
    subst s1. destruct (pod_user_matching env _ _); simpl.
    - rewrite lookup_insert_ne by done. apply Hrows. by right.
    - apply Hrows. by right. }
  apply elem_of_cons in Hin as [Heq|Hin].
  - simplify_eq. destruct (match_loop_others env rows s1 pk0 Hpk0) as [-> _].
    exact Hpk0'.
  - rewrite <- Husers. by apply IH.
Qed.

Lemma match_loop_returns env rows : forall s,
  exists s2, for_each rows (match_bbb_user env) s = (Ok tt, s2).
Proof.
  induction rows as [|row rows IH]; intros s; [eexists; reflexivity|].
  cbn [for_each]. unfold mbind, M_bind. rewrite match_bbb_user_spec. apply IH.
Qed.

Lemma bbb_users_to_match_rows (t : gmap Z BBBUser.t) pk u :
  (pk, u) ∈ bbb_users_to_match t -> t !! pk = Some u /\ BBBUser.user_id u = None.
Proof.
  unfold bbb_users_to_match. intros Hin.
  apply elem_of_take in Hin as (i & Hi & _).
  apply list_elem_of_lookup_2 in Hi.
  rewrite order_by_id_desc_perm in Hi.
  apply elem_of_filter in Hi as [Hpk Hu]. split; [exact Hpk|].
  apply negb_true_iff, bool_decide_eq_false in Hu.
  destruct (BBBUser.user_id u); [|reflexivity]. exfalso. by apply Hu.
Qed.

Lemma bbb_users_to_match_NoDup (t : gmap Z BBBUser.t) :
  NoDup (bbb_users_to_match t).*1.
Proof.
  unfold bbb_users_to_match. rewrite fmap_take.
  eapply sublist_NoDup; [|apply sublist_take].
  rewrite order_by_id_desc_perm. apply NoDup_filter_keys.
Qed.

Lemma matching_links env h m s pk u :
  (pk, u) ∈ bbb_users_to_match (bbb_users s) ->
  (matching_bbb_pod_user env h m s).1 = Ok (h, m)
  /\ bbb_users (matching_bbb_pod_user env h m s).2 !! pk
     = Some (matched env (users s) u).
Proof.
  intros Hin. unfold matching_bbb_pod_user.
  unfold try_except, mbind, M_bind, read. cbn [fst snd].
  pose proof (match_loop_links env (bbb_users_to_match (bbb_users s)) s
                (bbb_users_to_match_NoDup _)
                (fun pk u H => proj1 (bbb_users_to_match_rows _ pk u H))
                pk u Hin) as Hlink.
  destruct (match_loop_returns env (bbb_users_to_match (bbb_users s)) s)
    as [s2 Hs2].
  rewrite Hs2 in *. simpl in *. split; [reflexivity|exact Hlink].
Qed.

Lemma pod_user_matching_singleton env fullName uid account :
  pod_user_matching env fullName {[ uid := account ]}
  = if icontains (bbbUsernameFormat env account) fullName
    then Some (uid, account) else None.
Proof.
  unfold pod_user_matching, Orm.first, Orm.filter.
  rewrite map_to_list_singleton. simpl.
  destruct (icontains _ _); reflexivity.
Qed.

(** C1, as amended: with the format "first_name last_name" and one local
    account, whose formatted name is "Jean Dupont", an unresolved
    participant taken by the matcher is linked to that account exactly
    when its full name is contained, whatever the case of the letters, in
    "Jean Dupont".  So "Jean Dupont" and "Dupont" are both linked; a full
    name that contains the formatted name without being contained in it,
    such as "Dr Jean Dupont", is not. *)
Theorem matching_containment (env : environment)
    (html_message_error message_error : string) (s : pod)
    (pk : Z) (bbbUser : BBBUser.t) (uid : Z) (account : User.t) :
  BBB_USERNAME_FORMAT env = "first_name last_name" ->
  users s = {[ uid := account ]} ->
  User.first_name account = "Jean" ->
  User.last_name account = "Dupont" ->
  (pk, bbbUser) ∈ bbb_users_to_match (bbb_users s) ->
  bbb_users (matching_bbb_pod_user env html_message_error message_error s).2 !! pk
  = Some (if icontains "Jean Dupont" (BBBUser.full_name bbbUser)
          then BBBUser.set_link (User.username account) uid bbbUser
          else bbbUser)
  /\ icontains "Jean Dupont" "Jean Dupont" = true
  /\ icontains "Jean Dupont" "Dupont" = true
  /\ icontains "Jean Dupont" "Dr Jean Dupont" = false.
Proof.
  intros Hformat Husers Hfirst Hlast Hin.
  split; [|by vm_compute].
  destruct (matching_links env html_message_error message_error s pk bbbUser Hin)
    as [_ ->].
  unfold matched. rewrite Husers, pod_user_matching_singleton.
  unfold bbbUsernameFormat. rewrite Hformat, Hfirst, Hlast.
  by destruct (icontains _ _).
Qed.

Lemma matching_containment_witness :
  bbb_users (matching_bbb_pod_user Run.matching_env EmptyString EmptyString
               Scenario.three_participants).2 !! 1
  = Some (BBBUser.mk "Dupont" "MODERATOR" 1 (Some "jdupont") (Some 7)).
Proof.
  apply (matching_containment Run.matching_env EmptyString EmptyString
           Scenario.three_participants 1 (Scenario.participant "Dupont")
           7 Scenario.jean_dupont).
  - reflexivity.
  - reflexivity.
  - reflexivity.
  - reflexivity.
  - apply (list_elem_of_lookup_2 _ 2%nat). vm_compute. reflexivity.
Defined.

(** C1 as stated fails: the participant "Dupont" is linked to the account
    of Jean Dupont, as the participant "Jean Dupont" is. *)
Lemma matching_containment_counterexample :
  let s' := (matching_bbb_pod_user Run.matching_env EmptyString EmptyString
               Scenario.three_participants).2 in
  ~ (BBBUser.user_id <$> bbb_users s' !! 1 = Some None
     /\ BBBUser.user_id <$> bbb_users s' !! 2 = Some (Some 7)).
Proof. vm_compute. intros [H _]. discriminate H. Qed.

(** ** Errors that are caught and lost *)

(** The value returned by [get_meeting] is dropped by the loop of
    [get_bbb_meetings_by_xml]: when the request, the parsing and the
    return code are fine, the lists come back as they went in, whatever
    happened to the meetings. *)
Lemma discovery_drops_meeting_errors env h m s addr xmldoc returncode :
  requests_get env (trace s)
    (BBB_SERVER_URL env +:+ "bigbluebutton/api/getMeetings?checksum="
       +:+ sha1_hexdigest env ("getMeetings" +:+ BBB_SECRET_KEY env)) = Ok addr ->
  parseString env addr = Ok xmldoc ->
  Dom.data_of "returncode" xmldoc = Ok returncode ->
  String.eqb returncode "FAILED" = false ->
  (get_bbb_meetings_by_xml env h m s).1 = Ok (h, m).
Proof.
  intros Hget Hparse Hcode Hfailed.
  unfold get_bbb_meetings_by_xml. unfold_monad. cbn [fst snd].
  rewrite Hget, Hparse, Hcode, Hfailed.
  destruct (for_each _ _ _) as [[[]|e] s2] eqn:E; [reflexivity|].
  exfalso. revert E. generalize (Dom.getElementsByTagName "meeting" xmldoc).
  intros l. match goal with |- for_each l ?f ?s1 = _ -> _ => generalize s1 end.
  induction l as [|x l IH]; intros s1; [discriminate|].
  cbn [for_each]. unfold mbind, M_bind.
  destruct (get_meeting env x h m s1) as [[r|e'] s3] eqn:Ex; [apply IH|].
  unfold get_meeting, try_except in Ex. revert Ex.
  match goal with |- context [match ?body s1 with _ => _ end] =>
    destruct (body s1) as [[r|e''] s4] end; discriminate.
Qed.

(** C2 fails on the code: the discovery answer holds a meeting without
    internal id.  [get_meeting] catches the error and returns the two
    lists with one entry each, but [get_bbb_meetings_by_xml] drops what
    [get_meeting] returns: the lists of the run stay empty, the run ends
    without a report, and the next meeting is processed. *)
Theorem meeting_error_is_not_reported :
  (get_meeting Run.discovery_env Scenario.meeting_without_internal_id
               EmptyString EmptyString Scenario.empty).1
  = Ok (report_error Run.discovery_env
          "Problem to get BBB meeting and save in Pod database : "
          EmptyString EmptyString IndexError)
  /\ (get_bbb_meetings_by_xml Run.discovery_env EmptyString EmptyString
        Scenario.empty).1
     = Ok (EmptyString, EmptyString)
  /\ (handle Run.discovery_env "main" Scenario.empty).1 = Ok tt
  /\ trace (run Run.discovery_env Scenario.empty)
     = [Request "https://bbb.univ.fr/bigbluebutton/api/getMeetings?checksum=sha1";
        Query_meeting "M2";
        Request "https://bbb.univ.fr/bigbluebutton/api/getRecordings?meetingID=ext-1&checksum=sha1"]
  /\ Meeting.internal_meeting_id
       <$> meetings (run Run.discovery_env Scenario.empty) !! 1 = Some "M2".
Proof. repeat split; vm_compute; reflexivity. Qed.

(** ** An ingestion that fails *)

(** C3 fails on the code: [encode_file_exist] catches nothing.  The server
    could not be reached, so there is an error to report; the first file
    of the drop directory cannot be moved, and the exception leaves
    [handle]: the second file is not looked at and no report is sent.  On
    a file system where the move succeeds, both files are encoded and the
    report is sent. *)
Theorem ingestion_failure_aborts_the_run :
  (handle Run.ingestion_env "main" Run.two_sessions).1
  = Raise (OSError "/data/bbb-recorder/media/a.mp4")
  /\ trace (run Run.ingestion_env Run.two_sessions)
     = [Request "https://bbb.univ.fr/bigbluebutton/api/getMeetings?checksum=sha1";
        Query_meeting "a";
        Makedirs "/data/www/media/videos/bbb";
        Rename "/data/bbb-recorder/media/a.mp4"
               "/data/www/media/videos/bbb/a_2020-04-21_16-29-58.309000.mp4"]
  /\ (handle Run.ingestion_env_ok "main" Run.two_sessions).1 = Ok tt
  /\ Query_meeting "b" ∈ trace (run Run.ingestion_env_ok Run.two_sessions)
  /\ (exists message html_message,
        List.last (trace (run Run.ingestion_env_ok Run.two_sessions))
                  (Encode 0)
        = Mail_admins message html_message).
Proof.
  split; [vm_compute; reflexivity|].
  split; [vm_compute; reflexivity|].
  split; [vm_compute; reflexivity|].
  split.
  - apply (list_elem_of_lookup_2 _ 5%nat). vm_compute. reflexivity.
  - eexists _, _. vm_compute. reflexivity.
Qed.

(** ** The playback entries of a recording *)

(** Every entry of well-formed playback elements overwrites the one
    before: the loop ends with the values of the last. *)
Lemma read_playbacks_last url image playbacks s :
  Forall (fun p => exists u i, Dom.data_of "url" p = Ok u
                               /\ Dom.data_of "image" p = Ok i) playbacks ->
  (read_playbacks (playbacks ++ [Scenario.playback url image]) s).1
  = Ok (url, Some image).
Proof.
  intros Hall. unfold read_playbacks.
  generalize (EmptyString, @None string). 
  induction Hall as [|x l (u & i & Hu & Hi) _ IH]; intros acc.
  - reflexivity.
  - cbn [app for_fold]. unfold mbind, M_bind, lift. rewrite Hu, Hi. apply IH.
Qed.

(** C4 fails on the code: the recording of M1 has two playback entries,
    and what is saved is the URL and the thumbnail of the second, the
    last, not those of the first. *)
Theorem last_playback_is_saved :
  let s' := run Run.recording_env Run.recorded_session in
  (Dom.data_of "url" <$> Dom.getElementsByTagName "playback" Run.two_playbacks)
  = [Ok "https://bbb.univ.fr/playback/1"; Ok "https://bbb.univ.fr/playback/2"]
  /\ (Dom.data_of "image" <$> Dom.getElementsByTagName "playback" Run.two_playbacks)
     = [Ok "thumb1.png"; Ok "thumb2.png"]
  /\ meetings s' !! 1
     = Some (Meeting.set_recording "https://bbb.univ.fr/playback/2" "thumb2.png"
               (Scenario.session "M1" true false None)).
Proof. repeat split; vm_compute; reflexivity. Qed.

(** ** The internal id of a dropped file *)

(** C8 fails on the code: [replace] removes every occurrence of the
    extension, not the last one.  For the file [a.webm.webm], of extension
    [webm], the meeting looked up is [a], where the name without its
    extension, as [os.path.splitext] gives it, is [a.webm]. *)
Theorem internal_id_of_file_loses_inner_extension :
  let filename := "a.webm.webm" in
  let extension := Str.last (Str.split "." filename) in
  extension = "webm"
  /\ is_in extension (VIDEO_ALLOWED_EXTENSIONS Run.matching_env) = true
  /\ (Path.splitext filename).1 = "a.webm"
  /\ Str.replace filename ("." +:+ extension) EmptyString = "a"
  /\ trace (process_directory Run.matching_env [filename]
              "/data/bbb-recorder/media/" EmptyString EmptyString
              Scenario.empty).2
     = [Query_meeting "a"].
Proof. repeat split; vm_compute; reflexivity. Qed.

(** ** Participants through the runs *)

Section Participants.

Variable P : gmap Z BBBUser.t -> Prop.

Hypothesis P_sighted : forall t t', sighted t t' -> P t -> P t'.

Hypothesis P_linked : forall t pk u name uid,
  t !! pk = Some u -> P t -> P (<[pk := BBBUser.set_link name uid u]> t).

Lemma keeps_bind {A B : Type} (c : M A) (f : A -> M B) :
  keeps P c -> (forall a, keeps P (f a)) -> keeps P (c ≫= f).
Proof.
  intros Hc Hf s Hs. unfold mbind, M_bind.
  specialize (Hc s Hs). destruct (c s) as [[a|e] s1]; simpl in *; [|exact Hc].
  by apply Hf.
Qed.

Lemma keeps_try {A : Type} (body : M A) (handler : exn -> M A) :
  keeps P body -> (forall e, keeps P (handler e)) -> keeps P (try_except body handler).
Proof.
  intros Hb Hh s Hs. unfold try_except.
  specialize (Hb s Hs). destruct (body s) as [[a|e] s1]; simpl in *; [exact Hb|].
  by apply Hh.
Qed.

Lemma keeps_same {A : Type} (c : M A) :
  (forall s, bbb_users (c s).2 = bbb_users s) -> keeps P c.
Proof. intros Hc s Hs. by rewrite Hc. Qed.

Lemma keeps_for_each {A B : Type} (l : list A) (f : A -> M B) :
  (forall x, keeps P (f x)) -> keeps P (for_each l f).
Proof.
  intros Hf s Hs.
  apply (for_each_keeps (fun s' => P (bbb_users s'))); [|exact Hs].
  intros x s' _. apply Hf.
Qed.

Lemma keeps_for_fold {A B : Type} (l : list A) (f : A -> B -> M B) acc :
  (forall x acc', keeps P (f x acc')) -> keeps P (for_fold l f acc).
Proof.
  intros Hf s Hs.
  apply (for_fold_keeps (fun s' => P (bbb_users s'))); [|exact Hs].
  intros x acc' s' _. apply Hf.
Qed.

(** The steps that do not write the table of participants. *)
Ltac keeps_step :=
  lazymatch goal with
  | |- keeps _ (try_except _ _) => apply keeps_try; [|intros ?]
  | |- keeps _ (mbind _ _) => apply keeps_bind; [|intros ?]
  | |- keeps _ (for_each _ _) => apply keeps_for_each; intros ?
  | |- keeps _ (for_fold _ _ _) => apply keeps_for_fold; intros ? ?
  | |- keeps _ (mret _) => apply keeps_same; intros ?; reflexivity
  | |- keeps _ (lift _) => apply keeps_same; intros ?; reflexivity
  | |- keeps _ (read _) => apply keeps_same; intros ?; reflexivity
  | |- keeps _ (call _ _) => apply keeps_same; intros ?; reflexivity
  | |- keeps _ (log _) => apply keeps_same; intros ?; reflexivity
  | |- keeps _ (Meeting_first _) => apply keeps_same; intros ?; reflexivity
  | |- keeps _ (Meeting_save _ _) => apply keeps_same; intros ?; reflexivity
  | |- keeps _ (Meeting_create _) => apply keeps_same; intros ?; reflexivity
  end.

Lemma get_attendee_keeps env attendee idActualMeeting h m :
  keeps P (get_attendee env attendee idActualMeeting h m).
Proof. intros s. apply P_sighted, get_attendee_sighted. Qed.

Lemma get_meeting_keeps env meeting h m : keeps P (get_meeting env meeting h m).
Proof.
  unfold get_meeting. repeat keeps_step.
  - destruct a4 as [[pk o]|]; repeat keeps_step.
    destruct (negb _ && _); repeat keeps_step.
  - apply get_attendee_keeps.
Qed.

Lemma get_bbb_meetings_by_xml_keeps env h m :
  keeps P (get_bbb_meetings_by_xml env h m).
Proof.
  unfold get_bbb_meetings_by_xml. repeat keeps_step.
  destruct (String.eqb a1 "FAILED"); simpl; repeat keeps_step;
    apply get_meeting_keeps.
Qed.

Lemma get_recording_keeps env recording key h m :
  keeps P (get_recording env recording key h m).
Proof.
  unfold get_recording. repeat keeps_step.
  destruct (String.eqb a key); repeat keeps_step.
  destruct a0 as [[pk o]|]; repeat keeps_step.
  - unfold read_playbacks. repeat keeps_step.
  - destruct a0 as [url thumbnail].
    destruct (negb _); repeat keeps_step.
Qed.

Lemma get_bbb_recording_by_xml_keeps env meeting_id key h m :
  keeps P (get_bbb_recording_by_xml env meeting_id key h m).
Proof.
  unfold get_bbb_recording_by_xml. repeat keeps_step.
  destruct (String.eqb a1 "FAILED"); simpl; repeat keeps_step;
    apply get_recording_keeps.
Qed.

Lemma get_bbb_meetings_recorded_keeps env h m :
  keeps P (get_bbb_meetings_recorded env h m).
Proof.
  unfold get_bbb_meetings_recorded. repeat keeps_step.
  destruct acc' as [h' m']. apply get_bbb_recording_by_xml_keeps.
Qed.

(** The loop of the matcher writes each row of its selection once, from
    what was selected. *)
Lemma match_loop_keeps env rows : forall s,
  NoDup rows.*1 ->
  (forall pk u, (pk, u) ∈ rows -> bbb_users s !! pk = Some u) ->
  P (bbb_users s) ->
  P (bbb_users (for_each rows (match_bbb_user env) s).2).
Proof.
  induction rows as [|[pk0 u0] rows IH]; intros s Hnd Hrows Hs; [exact Hs|].
  rewrite fmap_cons in Hnd. apply NoDup_cons in Hnd as [Hpk0 Hnd].
  cbn [for_each]. unfold mbind, M_bind. rewrite match_bbb_user_spec.
  assert (forall pk' u', (pk', u') ∈ rows -> pk' <> pk0) as Hne.
  { intros pk' u' Hin ->. apply Hpk0. apply list_elem_of_fmap. by exists (pk0, u'). }
  apply IH; [exact Hnd| |].
  - intros pk' u' Hin. specialize (Hne pk' u' Hin).
    destruct (pod_user_matching env _ _); simpl.
    + rewrite lookup_insert_ne by done. apply Hrows. by right.
    + apply Hrows. by right.
  - unfold matched. cbn [fst snd].
    destruct (pod_user_matching env _ _) as [[uid podUser]|]; simpl; [|exact Hs].
    apply P_linked; [|exact Hs]. apply Hrows. left.
Qed.

Lemma matching_bbb_pod_user_keeps env h m : keeps P (matching_bbb_pod_user env h m).
Proof.
  intros s Hs. unfold matching_bbb_pod_user.
  unfold try_except, mbind, M_bind, read. cbn [fst snd].
  pose proof (match_loop_keeps env (bbb_users_to_match (bbb_users s)) s
                (bbb_users_to_match_NoDup _)
                (fun pk u H => proj1 (bbb_users_to_match_rows _ pk u H)) Hs)
    as Hloop.
  destruct (for_each _ _ s) as [[[]|e] s2]; exact Hloop.
Qed.

Lemma process_directory_keeps env files root h m :
  keeps P (process_directory env files root h m).
Proof.
  unfold process_directory. repeat keeps_step.
  destruct acc' as [h' m']. destruct (negb _); [repeat keeps_step|].
  apply keeps_same. intros s. unfold encode_file_exist. exec; reflexivity.
Qed.

Lemma handle_keeps env task : keeps P (handle env task).
Proof.
  unfold handle.
  destruct (negb _ && _); [|repeat keeps_step].
  apply keeps_bind; [apply get_bbb_meetings_by_xml_keeps|intros [h1 m1]].
  apply keeps_bind; [apply get_bbb_meetings_recorded_keeps|intros [h2 m2]].
  apply keeps_bind; [apply matching_bbb_pod_user_keeps|intros [h3 m3]].
  apply keeps_bind.
  - apply keeps_for_fold. intros [root files] [h' m'].
    apply process_directory_keeps.
  - intros [h4 m4]. destruct (negb _); repeat keeps_step.
Qed.

Lemma runs_keep envs : forall s, P (bbb_users s) -> P (bbb_users (runs envs s)).
Proof.
  unfold runs. induction envs as [|env envs IH]; intros s Hs; [exact Hs|].
  simpl. apply IH. by apply handle_keeps.
Qed.

End Participants.

Lemma sighted_exactly_one fullName sessionId t t' :
  sighted t t' ->
  exactly_one_row fullName sessionId t -> exactly_one_row fullName sessionId t'.
Proof.
  intros Hstep (pk & u & Hpk & Hu & Hone).
  exists pk, u. split; [by eapply sighted_extends|]. split; [exact Hu|].
  destruct Hstep as [|u0 Hnew]; [exact Hone|].
  intros pk' u' Hpk' Hu'. rewrite lookup_insert in Hpk'.
  destruct (decide (Orm.next_id t = pk')) as [<-|]; [|by eapply Hone].
  simplify_eq. exfalso. destruct Hu as [Hn Hm], Hu' as [Hn' Hm'].
  eapply (Hnew pk u); eauto; congruence.
Qed.

Lemma linked_exactly_one fullName sessionId (t : gmap Z BBBUser.t) pk u name uid :
  t !! pk = Some u ->
  exactly_one_row fullName sessionId t ->
  exactly_one_row fullName sessionId (<[pk := BBBUser.set_link name uid u]> t).
Proof.
  intros Hpk (pk1 & u1 & Hpk1 & Hu1 & Hone).
  destruct (decide (pk = pk1)) as [->|Hne].
  - assert (u1 = u) as -> by congruence.
    exists pk1, (BBBUser.set_link name uid u).
    split; [apply lookup_insert_eq|]. split; [exact Hu1|].
    intros pk' u' Hpk' Hu'. rewrite lookup_insert in Hpk'.
    destruct (decide (pk1 = pk')) as [<-|]; [reflexivity|by eapply Hone].
  - exists pk1, u1. split; [by rewrite lookup_insert_ne|]. split; [exact Hu1|].
    intros pk' u' Hpk' Hu'. rewrite lookup_insert in Hpk'.
    destruct (decide (pk = pk')) as [<-|]; [|by eapply Hone].
    simplify_eq. by apply (Hone pk u).
Qed.

(** C7: however often the attendees of the discovery answers are
    processed, and whichever other attendees come in between, a moderator
    seen at least once in a session has exactly one participant row for
    its (fullName, sessionId) pair, provided the table had at most one
    before; every row that was in the table is still there under its key
    with all its fields unchanged; and through any runs that follow, with
    whatever they see again, the pair still has exactly one row. *)
Theorem moderator_has_one_row (env : environment)
    (seen : list (Dom.node * Z)) (html_message_error message_error : string)
    (s : pod) (attendee : Dom.node) (fullName : string) (sessionId : Z) :
  Dom.data_of "fullName" attendee = Ok fullName ->
  Dom.data_of "role" attendee = Ok "MODERATOR" ->
  (attendee, sessionId) ∈ seen ->
  at_most_one_row fullName sessionId (bbb_users s) ->
  let s' := (sightings env seen html_message_error message_error s).2 in
  exactly_one_row fullName sessionId (bbb_users s')
  /\ (forall pk u, bbb_users s !! pk = Some u -> bbb_users s' !! pk = Some u)
  /\ (forall envs, exactly_one_row fullName sessionId (bbb_users (runs envs s'))).
Proof.
  intros Hname Hrole Hin Hone.
  destruct (sightings_spec env seen html_message_error message_error
              fullName sessionId s Hone) as (H1 & H2 & H3).
  assert (exactly_one_row fullName sessionId
            (bbb_users (sightings env seen html_message_error message_error s).2))
    as Hexactly.
  { destruct (H3 attendee Hin Hname Hrole) as (pk & u & Hpk & Hu).
    exists pk, u. split; [exact Hpk|]. split; [exact Hu|].
    intros pk' u' Hpk' Hu'. by eapply H1. }
  split; [exact Hexactly|]. split; [exact H2|].
  intros envs.
  apply (runs_keep (exactly_one_row fullName sessionId)
           (sighted_exactly_one fullName sessionId)
           (linked_exactly_one fullName sessionId)).
  exact Hexactly.
Qed.

Lemma moderator_has_one_row_witness :
  exactly_one_row "Marie Curie" 1
    (bbb_users (sightings Run.matching_env [(Run.marie, 1); (Run.marie, 1)]
                  EmptyString EmptyString Scenario.empty).2).
Proof.
  apply (moderator_has_one_row Run.matching_env
           [(Run.marie, 1); (Run.marie, 1)] EmptyString EmptyString
           Scenario.empty Run.marie "Marie Curie" 1).
  - reflexivity.
  - reflexivity.
  - left.
  - intros pk1 pk2 u1 u2 H1. simpl in H1. rewrite lookup_empty in H1.
    discriminate H1.
Defined.


(** * Further properties of the command *)

(** ** What [first()] finds *)

Lemma first_filter_Some {A : Type} (p : A -> bool) (table : gmap Z A) pk a :
  Orm.first (Orm.filter p table) = Some (pk, a) <->
  table !! pk = Some a /\ p a = true
  /\ forall pk' a', table !! pk' = Some a' -> p a' = true -> pk ≤ pk'.
Proof.
  split.
  - intros Hfirst. pose proof (first_Some _ _ Hfirst) as Hin.
    apply elem_of_filter in Hin as [Hpk Hp]. split; [exact Hpk|]. split; [exact Hp|].
    intros pk' a' Hpk' Hp'.
    apply (first_least _ (pk, a) (pk', a') Hfirst).
    apply elem_of_filter. by split.
  - intros (Hpk & Hp & Hleast).
    assert ((pk, a) ∈ Orm.filter p table) as Hin by (apply elem_of_filter; by split).
    destruct (Orm.first (Orm.filter p table)) as [[pk2 a2]|] eqn:Hfirst.
    + pose proof (first_least _ _ _ Hfirst Hin) as Hle. simpl in Hle.
      apply first_Some, elem_of_filter in Hfirst as [Hpk2 Hp2].
      specialize (Hleast pk2 a2 Hpk2 Hp2).
      assert (pk2 = pk) as -> by lia. congruence.
    + apply first_None in Hfirst. rewrite Hfirst in Hin.
      by apply elem_of_nil in Hin.
Qed.

Lemma first_filter_None {A : Type} (p : A -> bool) (table : gmap Z A) :
  Orm.first (Orm.filter p table) = None <->
  forall pk a, table !! pk = Some a -> p a = false.
Proof.
  split.
  - intros Hfirst pk a Hpk. apply first_None in Hfirst.
    destruct (p a) eqn:Hp; [|reflexivity].
    assert ((pk, a) ∈ Orm.filter p table) as Hin by (apply elem_of_filter; by split).
    rewrite Hfirst in Hin. by apply elem_of_nil in Hin.
  - intros Hnone.
    destruct (Orm.first (Orm.filter p table)) as [[pk a]|] eqn:Hfirst; [|reflexivity].
    apply first_Some, elem_of_filter in Hfirst as [Hpk Hp].
    rewrite (Hnone pk a Hpk) in Hp. discriminate.
Qed.

(** ** One attendee *)

Lemma participant_test fullName sessionId (u : BBBUser.t) :
  String.eqb (BBBUser.full_name u) fullName && Z.eqb (BBBUser.meeting_id u) sessionId
  = true <-> is_participant fullName sessionId u.
Proof.
  unfold is_participant. rewrite andb_true_iff, String.eqb_eq, Z.eqb_eq. tauto.
Qed.

(** X1: an attendee whose role is not MODERATOR is not saved: the
    database and the trace are as before, and the error lists come back
    unchanged. *)
Theorem attendee_of_other_role_is_dropped (env : environment)
    (attendee : Dom.node) (idActualMeeting : Z)
    (html_message_error message_error : string) (s : pod)
    (fullName role : string) :
  Dom.data_of "fullName" attendee = Ok fullName ->
  Dom.data_of "role" attendee = Ok role ->
  role <> "MODERATOR" ->
  get_attendee env attendee idActualMeeting html_message_error message_error s
  = (Ok (html_message_error, message_error), s).
Proof.
  intros Hname Hrole Hne. unfold get_attendee. unfold_monad.
  rewrite Hname, Hrole. apply String.eqb_neq in Hne. rewrite Hne. reflexivity.
Qed.

Lemma attendee_of_other_role_is_dropped_witness :
  get_attendee Run.matching_env (Scenario.attendee "Ana Gomez" "VIEWER") 1
               EmptyString EmptyString Scenario.empty
  = (Ok (EmptyString, EmptyString), Scenario.empty).
Proof.
  apply (attendee_of_other_role_is_dropped Run.matching_env
           (Scenario.attendee "Ana Gomez" "VIEWER") 1 EmptyString EmptyString
           Scenario.empty "Ana Gomez" "VIEWER").
  - reflexivity.
  - reflexivity.
  - discriminate.
Defined.

(** X2: an attendee element without a readable [fullName], or with one
    but without a readable [role], writes nothing, and [get_attendee]
    returns the two lists with the one entry of this error appended to
    each. *)
Theorem malformed_attendee_is_an_error (env : environment)
    (attendee : Dom.node) (idActualMeeting : Z)
    (html_message_error message_error : string) (s : pod) (e : exn) :
  Dom.data_of "fullName" attendee = Raise e
  \/ (exists fullName, Dom.data_of "fullName" attendee = Ok fullName)
     /\ Dom.data_of "role" attendee = Raise e ->
  get_attendee env attendee idActualMeeting html_message_error message_error s
  = (Ok (report_error env
           "Problem to get BBB attendee and save in Pod database : "
           html_message_error message_error e), s).
Proof.
  unfold get_attendee. unfold_monad.
  intros [Hname|[[fullName Hname] Hrole]].
  - rewrite Hname. reflexivity.
  - rewrite Hname, Hrole. reflexivity.
Qed.

Lemma malformed_attendee_is_an_error_witness :
  get_attendee Run.matching_env
               (Dom.Element "attendee" [Scenario.el "fullName" "Ana Gomez"]) 1
               EmptyString EmptyString Scenario.empty
  = (Ok (report_error Run.matching_env
           "Problem to get BBB attendee and save in Pod database : "
           EmptyString EmptyString IndexError), Scenario.empty).
Proof.
  apply (malformed_attendee_is_an_error Run.matching_env
           (Dom.Element "attendee" [Scenario.el "fullName" "Ana Gomez"]) 1
           EmptyString EmptyString Scenario.empty IndexError).
  right. split; [by eexists|reflexivity].
Defined.

(** X3: a moderator not yet known for the meeting gets a new row, under
    the next key: its name, the role MODERATOR, the key of the meeting,
    and no link to a Pod account.  Nothing else is written. *)
Theorem new_moderator_is_saved (env : environment)
    (attendee : Dom.node) (idActualMeeting : Z)
    (html_message_error message_error : string) (s : pod) (fullName : string) :
  Dom.data_of "fullName" attendee = Ok fullName ->
  Dom.data_of "role" attendee = Ok "MODERATOR" ->
  (forall pk u, bbb_users s !! pk = Some u ->
                ~ is_participant fullName idActualMeeting u) ->
  get_attendee env attendee idActualMeeting html_message_error message_error s
  = (Ok (html_message_error, message_error),
     with_bbb_users
       (insert (Orm.next_id (bbb_users s))
               (BBBUser.mk fullName "MODERATOR" idActualMeeting None None)) s).
Proof.
  intros Hname Hrole Hnew. unfold get_attendee. unfold_monad.
  rewrite Hname, Hrole. cbn [String.eqb Ascii.eqb Bool.eqb fst snd].
  assert (Orm.first
            (Orm.filter
               (fun u => String.eqb (BBBUser.full_name u) fullName
                         && Z.eqb (BBBUser.meeting_id u) idActualMeeting)
               (bbb_users s)) = None) as ->.
  { apply first_filter_None. intros pk u Hpk.
    apply not_true_is_false. rewrite participant_test. exact (Hnew pk u Hpk). }
  reflexivity.
Qed.

Lemma new_moderator_is_saved_witness :
  get_attendee Run.matching_env Run.marie 1 EmptyString EmptyString Scenario.empty
  = (Ok (EmptyString, EmptyString),
     with_bbb_users
       (insert (Orm.next_id (bbb_users Scenario.empty))
               (BBBUser.mk "Marie Curie" "MODERATOR" 1 None None))
       Scenario.empty).
Proof.
  apply (new_moderator_is_saved Run.matching_env Run.marie 1 EmptyString
           EmptyString Scenario.empty "Marie Curie").
  - reflexivity.
  - reflexivity.
  - intros pk u Hpk. simpl in Hpk. rewrite lookup_empty in Hpk. discriminate Hpk.
Defined.

Lemma get_attendee_cases env attendee idActualMeeting h m s :
  get_attendee env attendee idActualMeeting h m s
  = match Dom.data_of "fullName" attendee, Dom.data_of "role" attendee with
    | Raise e, _ | Ok _, Raise e =>
        (Ok (report_error env
               "Problem to get BBB attendee and save in Pod database : " h m e), s)
    | Ok fullName, Ok role =>
        (Ok (h, m),
         if String.eqb role "MODERATOR" then
           match Orm.first
                   (Orm.filter
                      (fun u => String.eqb (BBBUser.full_name u) fullName
                                && Z.eqb (BBBUser.meeting_id u) idActualMeeting)
                      (bbb_users s)) with
           | Some _ => s
           | None =>
               with_bbb_users
                 (insert (Orm.next_id (bbb_users s))
                    (BBBUser.mk fullName "MODERATOR" idActualMeeting None None)) s
           end
         else s)
    end.
Proof.
  unfold get_attendee. unfold_monad.
  destruct (Dom.data_of "fullName" attendee) as [fullName|]; [|reflexivity].
  destruct (Dom.data_of "role" attendee) as [role|]; [|reflexivity].
  destruct (String.eqb role "MODERATOR"); [|reflexivity].
  cbn [fst snd]. destruct (Orm.first _) as [[pk u]|]; reflexivity.
Qed.

(** X4: seeing the same attendee again changes nothing.  Whatever the
    element holds, a second [get_attendee] on it, right after the first,
    returns what the first returned and leaves the database and the trace
    as the first left them. *)
Theorem get_attendee_twice (env : environment)
    (attendee : Dom.node) (idActualMeeting : Z)
    (html_message_error message_error : string) (s : pod) :
  let once := get_attendee env attendee idActualMeeting
                           html_message_error message_error s in
  get_attendee env attendee idActualMeeting html_message_error message_error once.2
  = once.
Proof.
  cbv zeta. rewrite (get_attendee_cases _ _ _ _ _ s).
  destruct (Dom.data_of "fullName" attendee) as [fullName|] eqn:Hname;
    [|by rewrite get_attendee_cases, Hname].
  destruct (Dom.data_of "role" attendee) as [role|] eqn:Hrole;
    [|by rewrite get_attendee_cases, Hname, Hrole].
  cbn [fst snd]. rewrite get_attendee_cases, Hname, Hrole.
  destruct (String.eqb role "MODERATOR"); [|reflexivity].
  destruct (Orm.first (Orm.filter _ (bbb_users s))) as [[pk u]|] eqn:Hfirst.
  - by rewrite Hfirst.
  - cbn [with_bbb_users bbb_users].
    destruct (Orm.first (Orm.filter _ (<[_ := _]> (bbb_users s))))
      as [[pk u]|] eqn:Hagain; [reflexivity|].
    exfalso. rewrite first_filter_None in Hagain.
    specialize (Hagain (Orm.next_id (bbb_users s)) _ (lookup_insert_eq _ _ _)).
    simpl in Hagain. rewrite String.eqb_refl, Z.eqb_refl in Hagain. discriminate.
Qed.

(** ** One meeting of the discovery answer *)

(** The loop over the attendees of a meeting returns, and writes the
    table of participants only. *)
Lemma attendees_loop env l idActualMeeting h m : forall s,
  exists s2,
    for_each l (fun attendee => get_attendee env attendee idActualMeeting h m) s
    = (Ok tt, s2)
    /\ meetings s2 = meetings s /\ users s2 = users s /\ types s2 = types s
    /\ videos s2 = videos s /\ trace s2 = trace s.
Proof.
  induction l as [|x l IH]; intros s; [by eexists|].
  cbn [for_each]. unfold mbind, M_bind. rewrite get_attendee_cases.
  destruct (Dom.data_of "fullName" x) as [fullName|];
    [destruct (Dom.data_of "role" x) as [role|]|].
  - destruct (String.eqb role "MODERATOR"); [|apply IH].
    destruct (Orm.first _); [apply IH|].
    destruct (IH (with_bbb_users
                    (insert (Orm.next_id (bbb_users s))
                       (BBBUser.mk fullName "MODERATOR" idActualMeeting None None))
                    s)) as (s2 & -> & ? & ? & ? & ? & ?).
    by exists s2.
  - apply IH.
  - apply IH.
Qed.

Lemma lookup_by_internal_id_None key (t : gmap Z Meeting.t) :
  (forall pk o, t !! pk = Some o -> Meeting.internal_meeting_id o <> key) ->
  Orm.first (Orm.filter (fun m => String.eqb (Meeting.internal_meeting_id m) key) t)
  = None.
Proof.
  intros Hnew. apply first_filter_None. intros pk o Hpk.
  apply String.eqb_neq. by eapply Hnew.
Qed.

Lemma lookup_by_internal_id_Some key (t : gmap Z Meeting.t) pk o :
  t !! pk = Some o ->
  Meeting.internal_meeting_id o = key ->
  (forall pk' o', t !! pk' = Some o' ->
                  Meeting.internal_meeting_id o' = key -> pk ≤ pk') ->
  Orm.first (Orm.filter (fun m => String.eqb (Meeting.internal_meeting_id m) key) t)
  = Some (pk, o).
Proof.
  intros Hpk Hkey Hleast. apply first_filter_Some.
  split; [exact Hpk|]. split; [by apply String.eqb_eq|].
  intros pk' o' Hpk' Hkey'. apply String.eqb_eq in Hkey'. by eapply Hleast.
Qed.

(** X5: a meeting of the discovery answer whose internal id is not in the
    table, with its five fields readable and a date that parses, is
    created under the next key: the ids, the name and the date of the
    answer, [encoding_step] 0, [recorded] true exactly when the answer
    says "true", the recording not available, no URL, no owner.  The
    error lists come back unchanged. *)
Theorem new_meeting_is_created (env : environment) (meeting : Dom.node)
    (html_message_error message_error : string) (s : pod)
    (meetingName meetingID internalMeetingID date recording : string)
    (dateForSql : Z) :
  Dom.data_of "meetingName" meeting = Ok meetingName ->
  Dom.data_of "meetingID" meeting = Ok meetingID ->
  Dom.data_of "internalMeetingID" meeting = Ok internalMeetingID ->
  Dom.data_of "createDate" meeting = Ok date ->
  Dom.data_of "recording" meeting = Ok recording ->
  (forall pk o, meetings s !! pk = Some o ->
                Meeting.internal_meeting_id o <> internalMeetingID) ->
  dateutil_parse env date = Ok dateForSql ->
  let after := get_meeting env meeting html_message_error message_error s in
  after.1 = Ok (html_message_error, message_error)
  /\ meetings after.2
     = <[Orm.next_id (meetings s) :=
           Meeting.mk meetingID internalMeetingID meetingName dateForSql 0
                      (String.eqb recording "true") false None None None]>
         (meetings s).
Proof.
  intros H1 H2 H3 H4 H5 Hnew Hdate. unfold get_meeting. unfold_monad. unfold log.
  rewrite H1, H2, H3, H4, H5. cbn [fst snd meetings].
  rewrite (lookup_by_internal_id_None _ _ Hnew), Hdate.
  cbn [fst snd meetings bbb_users users types videos trace].
  match goal with |- context [for_each ?l ?f ?s1] =>
    destruct (attendees_loop env l (Orm.next_id (meetings s))
                html_message_error message_error s1) as (s2 & Hloop & Hm & _)
  end.
  rewrite Hloop. cbn [fst snd]. split; [reflexivity|].
  rewrite Hm. reflexivity.
Qed.

Lemma new_meeting_is_created_witness :
  let after := get_meeting Run.matching_env
                 (Scenario.meeting "M1" "true" [Run.marie])
                 EmptyString EmptyString Scenario.empty in
  after.1 = Ok (EmptyString, EmptyString)
  /\ meetings after.2
     = <[Orm.next_id (meetings Scenario.empty) :=
           Meeting.mk "ext-1" "M1" "Cours" 1587479398309000 0
                      (String.eqb "true" "true") false None None None]>
         (meetings Scenario.empty).
Proof.
  apply (new_meeting_is_created Run.matching_env
           (Scenario.meeting "M1" "true" [Run.marie]) EmptyString EmptyString
           Scenario.empty "Cours" "ext-1" "M1" "Tue Apr 21 16:29:58 CEST 2020"
           "true" 1587479398309000).
  - reflexivity.
  - reflexivity.
  - reflexivity.
  - reflexivity.
  - reflexivity.
  - intros pk o Hpk. simpl in Hpk. rewrite lookup_empty in Hpk. discriminate Hpk.
  - reflexivity.
Defined.

(** X6: when the date of an unknown meeting does not parse, the meeting
    is not created and its attendees are not looked at: the tables are as
    before, and [get_meeting] returns the lists with the entry of this
    error appended. *)
Theorem unknown_meeting_with_bad_date_is_not_created (env : environment)
    (meeting : Dom.node) (html_message_error message_error : string) (s : pod)
    (meetingName meetingID internalMeetingID date recording : string) (e : exn) :
  Dom.data_of "meetingName" meeting = Ok meetingName ->
  Dom.data_of "meetingID" meeting = Ok meetingID ->
  Dom.data_of "internalMeetingID" meeting = Ok internalMeetingID ->
  Dom.data_of "createDate" meeting = Ok date ->
  Dom.data_of "recording" meeting = Ok recording ->
  (forall pk o, meetings s !! pk = Some o ->
                Meeting.internal_meeting_id o <> internalMeetingID) ->
  dateutil_parse env date = Raise e ->
  let after := get_meeting env meeting html_message_error message_error s in
  after.1 = Ok (report_error env
                  "Problem to get BBB meeting and save in Pod database : "
                  html_message_error message_error e)
  /\ meetings after.2 = meetings s
  /\ bbb_users after.2 = bbb_users s.
Proof.
  intros H1 H2 H3 H4 H5 Hnew Hdate. unfold get_meeting. unfold_monad. unfold log.
  rewrite H1, H2, H3, H4, H5. cbn [fst snd meetings].
  rewrite (lookup_by_internal_id_None _ _ Hnew), Hdate. by cbn.
Qed.

Lemma unknown_meeting_with_bad_date_is_not_created_witness :
  let meeting :=
    Dom.Element "meeting"
      [Scenario.el "meetingName" "Cours"; Scenario.el "meetingID" "ext-1";
       Scenario.el "internalMeetingID" "M1";
       Scenario.el "createDate" "yesterday"; Scenario.el "recording" "true";
       Run.marie] in
  let after := get_meeting Run.matching_env meeting EmptyString EmptyString
                           Scenario.empty in
  after.1 = Ok (report_error Run.matching_env
                  "Problem to get BBB meeting and save in Pod database : "
                  EmptyString EmptyString (ParserError "yesterday"))
  /\ meetings after.2 = meetings Scenario.empty
  /\ bbb_users after.2 = bbb_users Scenario.empty.
Proof.
  intros meeting.
  apply (unknown_meeting_with_bad_date_is_not_created Run.matching_env meeting
           EmptyString EmptyString Scenario.empty "Cours" "ext-1" "M1"
           "yesterday" "true" (ParserError "yesterday")).
  - reflexivity.
  - reflexivity.
  - reflexivity.
  - reflexivity.
  - reflexivity.
  - intros pk o Hpk. simpl in Hpk. rewrite lookup_empty in Hpk. discriminate Hpk.
  - reflexivity.
Defined.

(** X7: for a meeting already in the table (the row of least key with
    its internal id) whose [recorded] flag is false, an answer that says
    recording "true" sets the flag, and that is the only change to the
    table of meetings: name, ids, date and the other fields of the row
    stay what they were, whatever the answer says about them. *)
Theorem known_meeting_becomes_recorded (env : environment) (meeting : Dom.node)
    (html_message_error message_error : string) (s : pod)
    (meetingName meetingID internalMeetingID date : string)
    (pk : Z) (oMeeting : Meeting.t) :
  Dom.data_of "meetingName" meeting = Ok meetingName ->
  Dom.data_of "meetingID" meeting = Ok meetingID ->
  Dom.data_of "internalMeetingID" meeting = Ok internalMeetingID ->
  Dom.data_of "createDate" meeting = Ok date ->
  Dom.data_of "recording" meeting = Ok "true" ->
  meetings s !! pk = Some oMeeting ->
  Meeting.internal_meeting_id oMeeting = internalMeetingID ->
  (forall pk' o', meetings s !! pk' = Some o' ->
                  Meeting.internal_meeting_id o' = internalMeetingID -> pk ≤ pk') ->
  Meeting.recorded oMeeting = false ->
  let after := get_meeting env meeting html_message_error message_error s in
  after.1 = Ok (html_message_error, message_error)
  /\ meetings after.2
     = <[pk := Meeting.set_recorded true oMeeting]> (meetings s).
Proof.
  intros H1 H2 H3 H4 H5 Hpk Hkey Hleast Hrec.
  unfold get_meeting. unfold_monad. unfold log.
  rewrite H1, H2, H3, H4, H5. cbn [fst snd meetings].
  rewrite (lookup_by_internal_id_Some _ _ _ _ Hpk Hkey Hleast), Hrec.
  cbn [negb andb String.eqb Ascii.eqb Bool.eqb fst snd
       meetings bbb_users users types videos trace].
  match goal with |- context [for_each ?l ?f ?s1] =>
    destruct (attendees_loop env l pk html_message_error message_error s1)
      as (s2 & Hloop & Hm & _)
  end.
  rewrite Hloop. cbn [fst snd]. split; [reflexivity|].
  rewrite Hm. reflexivity.
Qed.

Lemma known_meeting_becomes_recorded_witness :
  let s := Scenario.with_sessions {[ 1 := Scenario.session "M1" false false None ]} in
  let after := get_meeting Run.matching_env
                 (Scenario.meeting "M1" "true" [Run.marie])
                 EmptyString EmptyString s in
  after.1 = Ok (EmptyString, EmptyString)
  /\ meetings after.2
     = <[1 := Meeting.set_recorded true (Scenario.session "M1" false false None)]>
         (meetings s).
Proof.
  intros s.
  apply (known_meeting_becomes_recorded Run.matching_env
           (Scenario.meeting "M1" "true" [Run.marie]) EmptyString EmptyString
           s "Cours" "ext-1" "M1" "Tue Apr 21 16:29:58 CEST 2020" 1
           (Scenario.session "M1" false false None)).
  - reflexivity.
  - reflexivity.
  - reflexivity.
  - reflexivity.
  - reflexivity.
  - reflexivity.
  - reflexivity.
  - intros pk' o' Hpk' _. simpl in Hpk'.
    apply lookup_singleton_Some in Hpk' as [<- _]. lia.
  - reflexivity.
Defined.

(** ** Exceptions stay inside the stages *)




(** X9: with a task other than [main], [handle] does nothing at all: no
    request, no query, nothing written, no report. *)
Theorem other_task_does_nothing (env : environment) (task : string) (s : pod) :
  task <> "main" -> handle env task s = (Ok tt, s).
Proof.
  intros Hne. unfold handle, valid_args, is_in. cbn [existsb].
  apply String.eqb_neq in Hne. rewrite Hne, orb_false_r, andb_false_r.
  reflexivity.
Qed.

Lemma other_task_does_nothing_witness :
  handle Run.discovery_env "help" Scenario.empty = (Ok tt, Scenario.empty).
Proof.
  apply (other_task_does_nothing Run.discovery_env "help" Scenario.empty).
  discriminate.
Defined.

(** ** The Recording Poller, case by case *)

(** X10: when no meeting of the table is recorded, still without
    recording and dated within the last four days, the poller does
    nothing: no request is sent, nothing is written, and the lists come
    back unchanged. *)
Theorem poller_is_idle (env : environment)
    (html_message_error message_error : string) (s : pod) :
  (forall pk o, meetings s !! pk = Some o ->
                Meeting.recorded o = false
                \/ Meeting.recording_available o = true
                \/ Meeting.session_date o < timezone_now env - timedelta_days 4) ->
  get_bbb_meetings_recorded env html_message_error message_error s
  = (Ok (html_message_error, message_error), s).
Proof.
  intros Hidle. unfold get_bbb_meetings_recorded.
  unfold try_except, mbind, M_bind, read. cbn [fst snd].
  assert (meetings_to_check (timezone_now env) (meetings s) = []) as ->.
  { apply elem_of_nil_inv. intros [pk o] Hin.
    apply elem_of_meetings_to_check in Hin as (Hpk & Hrec & Hav & Hdate).
    destruct (Hidle pk o Hpk) as [?|[?|?]]; [congruence|congruence|lia]. }
  reflexivity.
Qed.

Lemma poller_is_idle_witness :
  get_bbb_meetings_recorded Run.again_env EmptyString EmptyString
                            Run.available_session
  = (Ok (EmptyString, EmptyString), Run.available_session).
Proof.
  apply (poller_is_idle Run.again_env EmptyString EmptyString
           Run.available_session).
  intros pk o Hpk. simpl in Hpk.
  apply lookup_singleton_Some in Hpk as [_ <-]. right. left. reflexivity.
Defined.

Lemma read_playbacks_app playbacks last url image s :
  Forall playback_is_readable playbacks ->
  Dom.data_of "url" last = Ok url ->
  Dom.data_of "image" last = Ok image ->
  read_playbacks (playbacks ++ [last]) s = (Ok (url, Some image), s).
Proof.
  intros Hall Hurl Himage. unfold read_playbacks.
  generalize (EmptyString, @None string).
  induction Hall as [|x l (u & i & Hu & Hi) _ IH]; intros acc.
  - cbn [app for_fold]. unfold mbind, M_bind, lift. rewrite Hurl, Himage. reflexivity.
  - cbn [app for_fold]. unfold mbind, M_bind, lift. rewrite Hu, Hi. apply IH.
Qed.

Lemma read_playbacks_unreadable playbacks s :
  Exists (fun p => ~ playback_is_readable p) playbacks ->
  exists e, read_playbacks playbacks s = (Raise e, s).
Proof.
  unfold read_playbacks. generalize (EmptyString, @None string).
  intros acc Hex. revert acc.
  induction playbacks as [|x l IH]; intros acc; [by apply Exists_nil in Hex|].
  cbn [for_fold]. unfold mbind, M_bind, lift.
  destruct (Dom.data_of "url" x) as [u|e] eqn:Hu; [|by exists e].
  destruct (Dom.data_of "image" x) as [i|e] eqn:Hi; [|by exists e].
  apply Exists_cons in Hex as [Hbad|Hex]; [|by apply IH].
  exfalso. apply Hbad. by exists u, i.
Qed.

(** X11: a recording of the answer whose internal id is not the one of
    the meeting that is checked is passed over: no lookup, nothing
    written. *)
Theorem other_recording_is_ignored (env : environment) (recording : Dom.node)
    (internal_meeting_id : string) (html_message_error message_error : string)
    (s : pod) (internalMeetingID : string) :
  Dom.data_of "internalMeetingID" recording = Ok internalMeetingID ->
  internalMeetingID <> internal_meeting_id ->
  get_recording env recording internal_meeting_id
                html_message_error message_error s
  = (Ok (html_message_error, message_error), s).
Proof.
  intros Hid Hne. unfold get_recording. unfold_monad.
  rewrite Hid. apply String.eqb_neq in Hne. rewrite Hne. reflexivity.
Qed.

Lemma other_recording_is_ignored_witness :
  get_recording Run.recording_env Run.two_playbacks "M2" EmptyString EmptyString
                Run.recorded_session
  = (Ok (EmptyString, EmptyString), Run.recorded_session).
Proof.
  apply (other_recording_is_ignored Run.recording_env Run.two_playbacks "M2"
           EmptyString EmptyString Run.recorded_session "M1").
  - reflexivity.
  - discriminate.
Defined.

(** X12: a recording of the meeting that holds no playback element makes
    nothing available: the table of meetings is as before and no error is
    returned. *)
Theorem recording_without_playback_changes_nothing (env : environment)
    (recording : Dom.node) (internal_meeting_id : string)
    (html_message_error message_error : string) (s : pod) :
  Dom.data_of "internalMeetingID" recording = Ok internal_meeting_id ->
  Dom.getElementsByTagName "playback" recording = [] ->
  let after := get_recording env recording internal_meeting_id
                             html_message_error message_error s in
  after.1 = Ok (html_message_error, message_error)
  /\ meetings after.2 = meetings s.
Proof.
  intros Hid Hnone. unfold get_recording. unfold_monad. unfold log.
  rewrite Hid, String.eqb_refl, Hnone. cbn [fst snd meetings].
  destruct (Orm.first _) as [[pk o]|]; by cbn.
Qed.

Lemma recording_without_playback_changes_nothing_witness :
  let after := get_recording Run.recording_env (Scenario.recording "M1" []) "M1"
                             EmptyString EmptyString Run.recorded_session in
  after.1 = Ok (EmptyString, EmptyString)
  /\ meetings after.2 = meetings Run.recorded_session.
Proof.
  apply (recording_without_playback_changes_nothing Run.recording_env
           (Scenario.recording "M1" []) "M1" EmptyString EmptyString
           Run.recorded_session).
  - reflexivity.
  - reflexivity.
Defined.

(** X13: a recording of the meeting whose playback elements are all
    readable makes the meeting available, with the URL and the thumbnail
    of its last playback element, provided that URL is not empty; the row
    written is the one of least key with that internal id, and its other
    fields are kept. *)
Theorem recording_makes_meeting_available (env : environment)
    (recording : Dom.node) (internal_meeting_id : string)
    (html_message_error message_error : string) (s : pod)
    (playbacks : list Dom.node) (last : Dom.node) (url image : string)
    (pk : Z) (oMeeting : Meeting.t) :
  Dom.data_of "internalMeetingID" recording = Ok internal_meeting_id ->
  Dom.getElementsByTagName "playback" recording = playbacks ++ [last] ->
  Forall playback_is_readable playbacks ->
  Dom.data_of "url" last = Ok url ->
  Dom.data_of "image" last = Ok image ->
  url <> EmptyString ->
  meetings s !! pk = Some oMeeting ->
  Meeting.internal_meeting_id oMeeting = internal_meeting_id ->
  (forall pk' o', meetings s !! pk' = Some o' ->
                  Meeting.internal_meeting_id o' = internal_meeting_id ->
                  pk ≤ pk') ->
  let after := get_recording env recording internal_meeting_id
                             html_message_error message_error s in
  after.1 = Ok (html_message_error, message_error)
  /\ meetings after.2
     = <[pk := Meeting.set_recording url image oMeeting]> (meetings s).
Proof.
  intros Hid Hplaybacks Hall Hurl Himage Hne Hpk Hkey Hleast.
  unfold get_recording. unfold_monad. unfold log.
  rewrite Hid, String.eqb_refl, Hplaybacks. cbn [fst snd meetings].
  rewrite (lookup_by_internal_id_Some _ _ _ _ Hpk Hkey Hleast).
  rewrite (read_playbacks_app _ _ _ _ _ Hall Hurl Himage).
  apply String.eqb_neq in Hne. rewrite Hne. by cbn.
Qed.

Lemma recording_makes_meeting_available_witness :
  let after := get_recording Run.recording_env Run.two_playbacks "M1"
                             EmptyString EmptyString Run.recorded_session in
  after.1 = Ok (EmptyString, EmptyString)
  /\ meetings after.2
     = <[1 := Meeting.set_recording "https://bbb.univ.fr/playback/2" "thumb2.png"
                (Scenario.session "M1" true false None)]>
         (meetings Run.recorded_session).
Proof.
  apply (recording_makes_meeting_available Run.recording_env Run.two_playbacks
           "M1" EmptyString EmptyString Run.recorded_session
           [Scenario.playback "https://bbb.univ.fr/playback/1" "thumb1.png"]
           (Scenario.playback "https://bbb.univ.fr/playback/2" "thumb2.png")
           "https://bbb.univ.fr/playback/2" "thumb2.png" 1
           (Scenario.session "M1" true false None)).
  - reflexivity.
  - reflexivity.
  - constructor; [|constructor]. eexists _, _. split; reflexivity.
  - reflexivity.
  - reflexivity.
  - discriminate.
  - reflexivity.
  - reflexivity.
  - intros pk' o' Hpk' _. simpl in Hpk'.
    apply lookup_singleton_Some in Hpk' as [<- _]. lia.
Defined.

(** X14: when one playback element of the recording has no readable
    [url] or no readable [image] (a format without preview, for one),
    nothing is saved, not even what the readable elements gave: the table
    of meetings is as before, and [get_recording] returns the lists with
    the entry of the error appended. *)
Theorem unreadable_playback_saves_nothing (env : environment)
    (recording : Dom.node) (internal_meeting_id : string)
    (html_message_error message_error : string) (s : pod)
    (pk : Z) (oMeeting : Meeting.t) :
  Dom.data_of "internalMeetingID" recording = Ok internal_meeting_id ->
  Exists (fun p => ~ playback_is_readable p)
         (Dom.getElementsByTagName "playback" recording) ->
  meetings s !! pk = Some oMeeting ->
  Meeting.internal_meeting_id oMeeting = internal_meeting_id ->
  let after := get_recording env recording internal_meeting_id
                             html_message_error message_error s in
  (exists e,
      after.1 = Ok (report_error env
                      "Problem to get BBB recording and save in Pod database : "
                      html_message_error message_error e))
  /\ meetings after.2 = meetings s.
Proof.
  intros Hid Hbad Hpk Hkey.
  unfold get_recording. unfold_monad. unfold log.
  rewrite Hid, String.eqb_refl. cbn [fst snd meetings].
  destruct (Orm.first _) as [[pk' o']|] eqn:Hfirst.
  - match goal with |- context [read_playbacks ?l ?s1] =>
      destruct (read_playbacks_unreadable l s1 Hbad) as [e ->]
    end.
    cbn. split; [by exists e|reflexivity].
  - exfalso. rewrite first_filter_None in Hfirst.
    specialize (Hfirst pk oMeeting Hpk). apply String.eqb_neq in Hfirst. done.
Qed.

Lemma unreadable_playback_saves_nothing_witness :
  let recording :=
    Scenario.recording "M1"
      [Scenario.playback "https://bbb.univ.fr/playback/1" "thumb1.png";
       Dom.Element "playback"
         [Dom.Element "format"
            [Scenario.el "type" "video";
             Scenario.el "url" "https://bbb.univ.fr/video/1"]]] in
  let after := get_recording Run.recording_env recording "M1"
                             EmptyString EmptyString Run.recorded_session in
  (exists e,
      after.1 = Ok (report_error Run.recording_env
                      "Problem to get BBB recording and save in Pod database : "
                      EmptyString EmptyString e))
  /\ meetings after.2 = meetings Run.recorded_session.
Proof.
  intros recording.
  apply (unreadable_playback_saves_nothing Run.recording_env recording "M1"
           EmptyString EmptyString Run.recorded_session 1
           (Scenario.session "M1" true false None)).
  - reflexivity.
  - apply Exists_cons_tl, Exists_cons_hd.
    intros (url & image & _ & Himage). discriminate Himage.
  - reflexivity.
  - reflexivity.
Defined.

(** ** The Identity Matcher, in general *)

(** X15: the account found for a participant is, among the accounts
    whose formatted name contains the participant's full name (without
    regard to case), the one of least primary key; none is found exactly
    when no account's formatted name contains it. *)
Theorem first_matching_account_wins (env : environment) (fullName : string)
    (accounts : gmap Z User.t) :
  (forall uid account,
      pod_user_matching env fullName accounts = Some (uid, account) <->
      accounts !! uid = Some account
      /\ icontains (bbbUsernameFormat env account) fullName = true
      /\ forall uid' account',
           accounts !! uid' = Some account' ->
           icontains (bbbUsernameFormat env account') fullName = true ->
           uid ≤ uid')
  /\ (pod_user_matching env fullName accounts = None <->
      forall uid account,
        accounts !! uid = Some account ->
        icontains (bbbUsernameFormat env account) fullName = false).
Proof.
  split.
  - intros uid account.
    apply (first_filter_Some
             (fun u => icontains (bbbUsernameFormat env u) fullName)).
  - apply (first_filter_None
             (fun u => icontains (bbbUsernameFormat env u) fullName)).
Qed.

#[local] Instance id_ge_total {A : Type} : Total (flip (@Orm.id_le A)).
Proof. intros x y. unfold flip, Orm.id_le. lia. Qed.

#[local] Instance id_ge_trans {A : Type} : Transitive (flip (@Orm.id_le A)).
Proof. intros x y z. unfold flip, Orm.id_le. lia. Qed.

Lemma strictly_sorted_desc {A : Type} (rows : list (Z * A)) :
  StronglySorted (flip Orm.id_le) rows -> NoDup rows.*1 ->
  StronglySorted (fun x y => y.1 < x.1) rows.
Proof.
  induction 1 as [|x l Hl IH Hx]; simpl; intros Hnd; constructor.
  - apply IH. by apply NoDup_cons in Hnd as [_ ?].
  - apply NoDup_cons in Hnd as [Hnot _].
    apply Forall_forall. intros y Hy.
    rewrite Forall_forall in Hx. specialize (Hx y Hy). unfold flip, Orm.id_le in Hx.
    destruct (decide (x.1 = y.1)) as [Heq|]; [|lia].
    exfalso. apply Hnot. rewrite Heq. apply list_elem_of_fmap. eauto.
Qed.

(** X16: the participants taken by one run of the matcher are at most
    500, all of them rows without link, in strictly decreasing order of
    key; and they are the most recent: a row without link that is not
    taken has a smaller key than every row taken. *)
Theorem matcher_takes_the_latest_500 (table : gmap Z BBBUser.t) :
  (length (bbb_users_to_match table) <= 500)%nat
  /\ (forall pk u, (pk, u) ∈ bbb_users_to_match table ->
                   table !! pk = Some u /\ BBBUser.user_id u = None)
  /\ StronglySorted (fun x y => y.1 < x.1) (bbb_users_to_match table)
  /\ (forall pk u pk' u',
        table !! pk = Some u -> BBBUser.user_id u = None ->
        (pk, u) ∉ bbb_users_to_match table ->
        (pk', u') ∈ bbb_users_to_match table -> pk < pk').
Proof.
  set (unresolved := Orm.filter
         (fun u => negb (bool_decide (is_Some (BBBUser.user_id u)))) table).
  assert (StronglySorted (fun x y : Z * BBBUser.t => y.1 < x.1)
            (Orm.order_by_id_desc unresolved)) as Hsorted.
  { apply strictly_sorted_desc.
    - apply StronglySorted_merge_sort; apply _.
    - rewrite order_by_id_desc_perm. apply NoDup_filter_keys. }
  split; [unfold bbb_users_to_match; rewrite length_take; lia|].
  split; [apply bbb_users_to_match_rows|].
  unfold bbb_users_to_match. fold unresolved.
  rewrite <- (take_drop 500 (Orm.order_by_id_desc unresolved)) in Hsorted.
  split; [by apply StronglySorted_app_1_l in Hsorted|].
  intros pk u pk' u' Hpk Hu Hout Hin.
  assert ((pk, u) ∈ drop 500 (Orm.order_by_id_desc unresolved)) as Hdrop.
  { assert ((pk, u) ∈ Orm.order_by_id_desc unresolved) as Hall.
    { rewrite order_by_id_desc_perm. apply elem_of_filter. split; [exact Hpk|].
      rewrite Hu. reflexivity. }
    rewrite <- (take_drop 500 (Orm.order_by_id_desc unresolved)) in Hall.
    apply elem_of_app in Hall as [?|?]; [done|assumption]. }
  apply (StronglySorted_app_1_elem_of _ _ _ _ _ Hsorted Hin Hdrop).
Qed.

(** X17: every participant taken by the matcher ends either linked to
    the first matching account, with that account's username and key, or,
    when no account matches, exactly as it was, to be tried again by a
    later run; and the matcher returns its lists unchanged. *)
Theorem taken_participant_is_linked_or_left (env : environment)
    (html_message_error message_error : string) (s : pod)
    (pk : Z) (bbbUser : BBBUser.t) :
  (pk, bbbUser) ∈ bbb_users_to_match (bbb_users s) ->
  let after := matching_bbb_pod_user env html_message_error message_error s in
  after.1 = Ok (html_message_error, message_error)
  /\ bbb_users after.2 !! pk
     = Some (match pod_user_matching env (BBBUser.full_name bbbUser) (users s) with
             | Some (uid, podUser) =>
                 BBBUser.mk (BBBUser.full_name bbbUser) (BBBUser.role bbbUser)
                            (BBBUser.meeting_id bbbUser)
                            (Some (User.username podUser)) (Some uid)
             | None => bbbUser
             end).
Proof.
  intros Hin.
  destruct (matching_links env html_message_error message_error s pk bbbUser Hin)
    as [Hret Hrow].
  split; [exact Hret|]. rewrite Hrow. unfold matched.
  by destruct (pod_user_matching env _ _) as [[uid podUser]|].
Qed.

Lemma taken_participant_is_linked_or_left_witness :
  let after := matching_bbb_pod_user Run.matching_env EmptyString EmptyString
                                     Scenario.three_participants in
  after.1 = Ok (EmptyString, EmptyString)
  /\ bbb_users after.2 !! 3 = Some (Scenario.participant "Dr Jean Dupont").
Proof.
  apply (taken_participant_is_linked_or_left Run.matching_env EmptyString
           EmptyString Scenario.three_participants 3
           (Scenario.participant "Dr Jean Dupont")).
  apply (list_elem_of_lookup_2 _ 0%nat). vm_compute. reflexivity.
Defined.

Lemma matching_keeps_linked_row env h m pk u :
  BBBUser.user_id u <> None ->
  keeps (fun t => t !! pk = Some u) (matching_bbb_pod_user env h m).
Proof.
  intros Hlinked s Hs. unfold matching_bbb_pod_user.
  unfold try_except, mbind, M_bind, read. cbn [fst snd].
  assert (pk ∉ (bbb_users_to_match (bbb_users s)).*1) as Hout.
  { intros Hin. apply list_elem_of_fmap in Hin as ([pk' u'] & -> & Hin).
    apply bbb_users_to_match_rows in Hin as [Hpk Hnone]. simpl in *.
    rewrite Hs in Hpk. congruence. }
  destruct (match_loop_others env _ s pk Hout) as [Hrow _].
  destruct (for_each _ _ s) as [[[]|e] s2]; simpl in *; congruence.
Qed.

Lemma handle_keeps_with (P : gmap Z BBBUser.t -> Prop) :
  (forall t t', sighted t t' -> P t -> P t') ->
  (forall env h m, keeps P (matching_bbb_pod_user env h m)) ->
  forall env task, keeps P (handle env task).
Proof.
  intros Hsighted Hmatch env task. unfold handle.
  destruct (negb _ && _); [|by apply keeps_same].
  apply keeps_bind; [by apply get_bbb_meetings_by_xml_keeps|intros [h1 m1]].
  apply keeps_bind; [by apply get_bbb_meetings_recorded_keeps|intros [h2 m2]].
  apply keeps_bind; [apply Hmatch|intros [h3 m3]].
  apply keeps_bind.
  - apply keeps_for_fold. intros [root files] [h' m'].
    apply process_directory_keeps.
  - intros [h4 m4]. destruct (negb _); by apply keeps_same.
Qed.

(** X18: the first successful match is final.  Once a participant row is
    linked to a Pod account, no later run changes it: not the discovery
    of new attendees, not the matcher, which only takes rows without
    link. *)
Theorem link_is_final (envs : list environment) (s : pod)
    (pk : Z) (bbbUser : BBBUser.t) :
  bbb_users s !! pk = Some bbbUser ->
  BBBUser.user_id bbbUser <> None ->
  bbb_users (runs envs s) !! pk = Some bbbUser.
Proof.
  intros Hpk Hlinked. revert s Hpk. unfold runs.
  induction envs as [|env envs IH]; intros s Hpk; [exact Hpk|].
  simpl. apply IH.
  apply (handle_keeps_with (fun t => t !! pk = Some bbbUser)); [| |exact Hpk].
  - intros t t' Hstep. by apply sighted_extends.
  - intros env' h m. by apply matching_keeps_linked_row.
Qed.

Lemma link_is_final_witness :
  let linked := BBBUser.mk "Dupont" "MODERATOR" 1 (Some "someone") (Some 3) in
  let s := mkPod ∅ {[ 1 := linked ]} {[ 7 := Scenario.jean_dupont ]} {[ 1 ]} ∅ [] in
  bbb_users (runs [Run.matching_env; Run.discovery_env] s) !! 1 = Some linked.
Proof.
  intros linked s.
  apply (link_is_final [Run.matching_env; Run.discovery_env] s 1 linked).
  - reflexivity.
  - discriminate.
Defined.

(** ** The Recording Ingestor, case by case *)

(** X19: [process_directory] ingests the files that pass its test, in
    their order, and nothing else: the files with another extension, or
    without extension, can be taken out of the list without any change to
    what it does and returns. *)
Theorem only_video_files_are_ingested (env : environment)
    (files : list string) (root : string)
    (html_message_error message_error : string) (s : pod) :
  process_directory env files root html_message_error message_error s
  = process_directory env (List.filter (is_video_file env) files) root
                      html_message_error message_error s.
Proof.
  unfold process_directory. revert html_message_error message_error s.
  induction files as [|filename files IH]; intros h m s; [reflexivity|].
  cbn [List.filter]. unfold is_video_file at 1.
  destruct (is_in _ _ && negb _) eqn:Htest.
  - cbn [for_fold]. rewrite Htest. cbn [negb]. unfold mbind, M_bind.
    destruct (encode_file_exist env _ _ _ _ s) as [[[h' m']|e] s1];
      [apply IH|reflexivity].
  - cbn [for_fold]. rewrite Htest. cbn [negb]. apply IH.
Qed.

(** X20: a file whose meeting is not in the table is left where it is:
    the one effect is the lookup of the meeting; no video is created,
    nothing is moved or encoded, and no error is added to the lists (the
    warning is only printed in debug mode). *)
Theorem file_of_unknown_meeting_is_left (env : environment)
    (filename extension : string)
    (message_error html_message_error : string) (s : pod) :
  (forall pk o, meetings s !! pk = Some o ->
                Meeting.internal_meeting_id o
                <> Str.replace filename ("." +:+ extension) EmptyString) ->
  let after := encode_file_exist env filename extension
                                 message_error html_message_error s in
  after.1 = Ok (html_message_error, message_error)
  /\ trace after.2
     = trace s ++ [Query_meeting
                     (Str.replace filename ("." +:+ extension) EmptyString)]
  /\ videos after.2 = videos s
  /\ meetings after.2 = meetings s.
Proof.
  intros Hnew. unfold encode_file_exist. unfold_monad. unfold log.
  cbn [fst snd meetings].
  rewrite (lookup_by_internal_id_None _ _ Hnew). by cbn.
Qed.

Lemma file_of_unknown_meeting_is_left_witness :
  let after := encode_file_exist Run.matching_env "abc123.webm" "webm"
                                 EmptyString EmptyString Scenario.empty in
  after.1 = Ok (EmptyString, EmptyString)
  /\ trace after.2
     = trace Scenario.empty
       ++ [Query_meeting (Str.replace "abc123.webm" ("." +:+ "webm") EmptyString)]
  /\ videos after.2 = videos Scenario.empty
  /\ meetings after.2 = meetings Scenario.empty.
Proof.
  apply (file_of_unknown_meeting_is_left Run.matching_env "abc123.webm" "webm"
           EmptyString EmptyString Scenario.empty).
  intros pk o Hpk. simpl in Hpk. rewrite lookup_empty in Hpk. discriminate Hpk.
Defined.

(** X21: the ingestion of the file of a known meeting, when the default
    type exists, the meeting has no owner and the collaborators do not
    fail: the meeting is looked up, the directory is made, the file is
    moved from DEFAULT_BBB_PATH to its place under MEDIA_ROOT, the video
    is saved under the next key with the name and the date of the meeting
    and the default type, and only then its encoding is asked for.  The
    error lists are returned unchanged. *)
Theorem known_file_is_moved_saved_and_encoded (env : environment)
    (filename extension : string)
    (message_error html_message_error : string) (s : pod)
    (pk : Z) (oMeeting : Meeting.t) :
  meetings s !! pk = Some oMeeting ->
  Meeting.internal_meeting_id oMeeting
  = Str.replace filename ("." +:+ extension) EmptyString ->
  (forall pk' o', meetings s !! pk' = Some o' ->
                  Meeting.internal_meeting_id o'
                  = Str.replace filename ("." +:+ extension) EmptyString ->
                  pk ≤ pk') ->
  Meeting.encoded_by_id oMeeting = None ->
  DEFAULT_BBB_TYPE_ID env ∈ types s ->
  (forall tr path, os_makedirs env tr path = Ok tt) ->
  (forall tr src dst, os_rename env tr src dst = Ok tt) ->
  (forall tr video_id, ENCODE_VIDEO env tr video_id = Ok tt) ->
  let after := encode_file_exist env filename extension
                                 message_error html_message_error s in
  after.1 = Ok (html_message_error, message_error)
  /\ exists name,
       videos after.2
       = <[Orm.next_id (videos s) :=
             Video.mk (Meeting.meeting_name oMeeting) None
                      (DEFAULT_BBB_TYPE_ID env)
                      (Meeting.session_date oMeeting) name]> (videos s)
       /\ trace after.2
          = trace s
            ++ [Query_meeting (Str.replace filename ("." +:+ extension) EmptyString);
                Makedirs (Path.dirname (Path.join (MEDIA_ROOT env) name));
                Rename (Path.join (DEFAULT_BBB_PATH env) filename)
                       (Path.join (MEDIA_ROOT env) name);
                Encode (Orm.next_id (videos s))].
Proof.
  intros Hpk Hkey Hleast Howner Htype Hmk Hmv Henc.
  unfold encode_file_exist. unfold_monad. unfold log.
  cbn [fst snd meetings].
  rewrite (lookup_by_internal_id_Some _ _ _ _ Hpk Hkey Hleast), Howner.
  cbn [fst snd types]. rewrite (bool_decide_eq_true_2 _ Htype).
  destruct (Path.splitext _) as [nom ext]. cbn [fst snd trace videos].
  rewrite Hmk, Hmv, Henc. cbn [fst snd trace videos].
  split; [reflexivity|]. eexists. split; [reflexivity|].
  rewrite <- !app_assoc. reflexivity.
Qed.

Lemma known_file_is_moved_saved_and_encoded_witness :
  let after := encode_file_exist Run.ingestion_env_ok "a.mp4" "mp4"
                                 EmptyString EmptyString Run.two_sessions in
  after.1 = Ok (EmptyString, EmptyString)
  /\ exists name,
       videos after.2
       = <[Orm.next_id (videos Run.two_sessions) :=
             Video.mk "Cours" None 1 1587479398309000 name]>
           (videos Run.two_sessions)
       /\ trace after.2
          = trace Run.two_sessions
            ++ [Query_meeting (Str.replace "a.mp4" ("." +:+ "mp4") EmptyString);
                Makedirs (Path.dirname (Path.join "/data/www/media" name));
                Rename (Path.join (DEFAULT_BBB_PATH Run.ingestion_env_ok) "a.mp4")
                       (Path.join "/data/www/media" name);
                Encode (Orm.next_id (videos Run.two_sessions))].
Proof.
  apply (known_file_is_moved_saved_and_encoded Run.ingestion_env_ok "a.mp4"
           "mp4" EmptyString EmptyString Run.two_sessions 1
           (Scenario.session "a" false false None)).
  - reflexivity.
  - reflexivity.
  - intros pk' o' Hpk' Hkey'. simpl in Hpk'.
    destruct (decide (pk' = 1)) as [->|Hne1]; [lia|].
    rewrite lookup_insert_ne in Hpk' by done.
    destruct (decide (pk' = 2)) as [->|Hne2]; [lia|].
    rewrite lookup_insert_ne, lookup_empty in Hpk' by done. discriminate Hpk'.
  - reflexivity.
  - vm_compute. reflexivity.
  - reflexivity.
  - reflexivity.
  - reflexivity.
Defined.





Lemma encode_file_exist_lists env filename extension m h s r :
  (encode_file_exist env filename extension m h s).1 = Ok r -> r = (h, m).
Proof.
  intros E. unfold encode_file_exist in E. unfold_monad.
  repeat case_match; simplify_eq/=; reflexivity.
Qed.

(** X24: the ingestion adds nothing to the error lists: when
    [process_directory] returns, it returns the two lists it was given,
    whatever it found in the directory. *)
Theorem ingestion_reports_nothing (env : environment) (files : list string)
    (root : string) (html_message_error message_error : string) (s : pod)
    (lists : string * string) :
  (process_directory env files root html_message_error message_error s).1
  = Ok lists ->
  lists = (html_message_error, message_error).
Proof.
  unfold process_directory. revert s.
  induction files as [|filename files IH]; intros s; cbn [for_fold].
  - unfold mret, M_ret. simpl. congruence.
  - unfold mbind, M_bind.
    destruct (negb _).
    + unfold mret at 1, M_ret at 1. apply IH.
    + destruct (encode_file_exist env _ _ _ _ s) as [[r|e] s1] eqn:E;
        [|discriminate].
      assert (r = (html_message_error, message_error)) as ->; [|apply IH].
      apply (f_equal fst) in E. by apply encode_file_exist_lists in E.
Qed.

Lemma ingestion_reports_nothing_witness :
  ("<li>before</li>", "before") = ("<li>before</li>", "before").
Proof.
  apply (ingestion_reports_nothing Run.matching_env ["abc123.webm"; "mp4"]
           "/data/bbb-recorder/media/" "<li>before</li>" "before"
           Scenario.empty ("<li>before</li>", "before")).
  vm_compute. reflexivity.
Defined.

(** ** The names of the dropped files *)

Lemma append_cons (c : ascii) (s t : string) :
  String c s +:+ t = String c (s +:+ t).
Proof. reflexivity. Qed.

Lemma append_nil_l (t : string) : EmptyString +:+ t = t.
Proof. reflexivity. Qed.

Lemma length_append (s t : string) :
  String.length (s +:+ t) = (String.length s + String.length t)%nat.
Proof.
  induction s as [|c s IH]; [reflexivity|].
  rewrite append_cons. cbn [String.length]. by rewrite IH.
Qed.

Lemma split_plain_name (stem ext : string) :
  Str.contains stem "." = false -> Str.contains ext "." = false ->
  Str.split "." (stem +:+ "." +:+ ext) = [stem; ext].
Proof.
  intros Hstem Hext. induction stem as [|c stem IH].
  - rewrite append_nil_l, append_cons, append_nil_l.
    cbn [Str.split]. rewrite Ascii.eqb_refl. by rewrite split_without_dot.
  - cbn [Str.contains] in Hstem. rewrite startswith_dot in Hstem.
    apply orb_false_iff in Hstem as [Hc Hstem].
    rewrite append_cons. cbn [Str.split]. rewrite Hc.
    by rewrite (IH Hstem).
Qed.

Lemma replace_from_drops_all (old new s : string) :
  Str.replace_from old new s (String.length s) = EmptyString.
Proof. induction s as [|c s IH]; [reflexivity|exact IH]. Qed.

Lemma startswith_refl (s : string) : Str.startswith s s = true.
Proof.
  induction s as [|c s IH]; [reflexivity|].
  cbn [Str.startswith]. by rewrite Ascii.eqb_refl, IH.
Qed.

Lemma replace_plain_name (stem ext : string) :
  Str.contains stem "." = false ->
  Str.replace (stem +:+ "." +:+ ext) ("." +:+ ext) EmptyString = stem.
Proof.
  intros Hstem. unfold Str.replace.
  rewrite (append_cons "." EmptyString ext), append_nil_l.
  induction stem as [|c stem IH].
  - rewrite append_nil_l. cbn [Str.replace_from]. rewrite startswith_refl.
    cbn [String.length Nat.pred]. rewrite append_nil_l.
    apply replace_from_drops_all.
  - cbn [Str.contains] in Hstem. rewrite startswith_dot in Hstem.
    apply orb_false_iff in Hstem as [Hc Hstem].
    rewrite append_cons. cbn [Str.replace_from Str.startswith].
    rewrite Hc. cbn [andb]. by rewrite (IH Hstem).
Qed.

Lemma encode_file_exist_first_effect env filename extension m h s :
  exists rest,
    trace (encode_file_exist env filename extension m h s).2
    = trace s
      ++ Query_meeting (Str.replace filename ("." +:+ extension) EmptyString)
      :: rest.
Proof.
  unfold encode_file_exist. unfold_monad. unfold log.
  repeat case_match; simplify_eq/=; eexists; rewrite <- ?app_assoc; reflexivity.
Qed.

(** X25: for a file named as the drop contract says, an internal id
    without dot, a dot, and an allowed extension without dot, the
    extension found is that extension and the meeting looked up is the
    one of that internal id: the lookup is the first thing the ingestion
    of the file does. *)
Theorem plain_file_name_gives_its_meeting (env : environment)
    (internalMeetingID ext root : string)
    (html_message_error message_error : string) (s : pod) :
  Str.contains internalMeetingID "." = false ->
  Str.contains ext "." = false ->
  is_in ext (VIDEO_ALLOWED_EXTENSIONS env) = true ->
  let filename := internalMeetingID +:+ "." +:+ ext in
  Str.last (Str.split "." filename) = ext
  /\ Str.replace filename ("." +:+ ext) EmptyString = internalMeetingID
  /\ exists rest,
       trace (process_directory env [filename] root
                html_message_error message_error s).2
       = trace s ++ Query_meeting internalMeetingID :: rest.
Proof.
  intros Hid Hext Hallowed filename.
  assert (Str.last (Str.split "." filename) = ext) as Hlast
    by (unfold filename; by rewrite split_plain_name).
  assert (Str.replace filename ("." +:+ ext) EmptyString = internalMeetingID)
    as Hkey by (by apply replace_plain_name).
  split; [exact Hlast|]. split; [exact Hkey|].
  unfold process_directory. cbn [for_fold]. rewrite Hlast, Hallowed.
  assert (String.eqb filename ext = false) as ->.
  { apply String.eqb_neq. intros Heq. apply (f_equal String.length) in Heq.
    unfold filename in Heq. rewrite !length_append in Heq.
    cbn [String.length] in Heq. lia. }
  cbn [negb andb]. unfold mbind, M_bind.
  destruct (encode_file_exist_first_effect env filename ext
              message_error html_message_error s) as [rest Hrest].
  rewrite Hkey in Hrest.
  destruct (encode_file_exist env filename ext _ _ s) as [[r|e] s1];
    simpl in *; eauto.
Qed.

Lemma plain_file_name_gives_its_meeting_witness :
  let filename := "183f0bf3-1554384862653" +:+ "." +:+ "webm" in
  Str.last (Str.split "." filename) = "webm"
  /\ Str.replace filename ("." +:+ "webm") EmptyString = "183f0bf3-1554384862653"
  /\ exists rest,
       trace (process_directory Run.matching_env [filename]
                "/data/bbb-recorder/media/" EmptyString EmptyString
                Scenario.empty).2
       = trace Scenario.empty ++ Query_meeting "183f0bf3-1554384862653" :: rest.
Proof.
  apply (plain_file_name_gives_its_meeting Run.matching_env
           "183f0bf3-1554384862653" "webm" "/data/bbb-recorder/media/"
           EmptyString EmptyString Scenario.empty).
  - reflexivity.
  - reflexivity.
  - reflexivity.
Defined.

(** ** The walk of the drop directory *)

Lemma os_walk_descend (top : string) (ds : list (string * dirtree)) :
  forall removed : bool,
    NoDup ds.*1 ->
    (removed = true -> "logs" ∉ ds.*1) ->
    (fix descend (ds : list (string * dirtree)) (removed : bool)
       : list (string * list string) :=
       match ds with
       | [] => []
       | (name, sub) :: ds' =>
           if negb removed && String.eqb name "logs" then descend ds' true
           else os_walk (Path.join top name) sub ++ descend ds' removed
       end) ds removed
    = flat_map (fun d : string * dirtree =>
                  if String.eqb d.1 "logs" then []
                  else os_walk (Path.join top d.1) d.2) ds.
Proof.
  induction ds as [|[name sub] ds IH]; intros removed Hnd Hlogs; [reflexivity|].
  rewrite fmap_cons in Hnd, Hlogs. apply NoDup_cons in Hnd as [Hname Hnd].
  cbn [flat_map fst snd].
  destruct (String.eqb name "logs") eqn:Heq.
  - apply String.eqb_eq in Heq. subst name.
    destruct removed.
    + exfalso. apply Hlogs; [reflexivity|left].
    + cbn [negb andb app]. apply IH; [exact Hnd|]. intros _. exact Hname.
  - rewrite andb_false_r. f_equal. apply IH; [exact Hnd|].
    intros Hrem Hin. apply (Hlogs Hrem). by right.
Qed.

(** X26: the walk of the drop directory starts with the directory itself
    and goes on with its subdirectories in turn, each walked the same
    way, except the one named [logs], which is left out with everything
    below it (the names of the subdirectories of a directory are
    distinct). *)
Theorem walk_leaves_logs_out (top : string) (dirs : list (string * dirtree))
    (files : list string) :
  NoDup dirs.*1 ->
  os_walk top (Dir dirs files)
  = (top, files)
    :: flat_map (fun d : string * dirtree =>
                   if String.eqb d.1 "logs" then []
                   else os_walk (Path.join top d.1) d.2) dirs.
Proof.
  intros Hnd. cbn [os_walk]. f_equal.
  apply os_walk_descend; [exact Hnd|discriminate].
Qed.

Lemma walk_leaves_logs_out_witness :
  os_walk "/data/bbb-recorder/media/"
          (Dir [("logs", Dir [("old", Dir [] ["x.mp4"])] ["y.mp4"]);
                ("2020", Dir [] ["b.mp4"])] ["a.mp4"])
  = [("/data/bbb-recorder/media/", ["a.mp4"]);
     ("/data/bbb-recorder/media/2020", ["b.mp4"])].
Proof.
  apply (walk_leaves_logs_out "/data/bbb-recorder/media/"
           [("logs", Dir [("old", Dir [] ["x.mp4"])] ["y.mp4"]);
            ("2020", Dir [] ["b.mp4"])] ["a.mp4"]).
  simpl. apply NoDup_cons. split; [|apply NoDup_singleton].
  rewrite list_elem_of_singleton. discriminate.
Defined.

(** ** The table of meetings through the runs *)

Section MeetingsThroughRuns.

Variable R : gmap Z Meeting.t -> gmap Z Meeting.t -> Prop.

Hypothesis R_refl : forall t, R t t.
Hypothesis R_trans : forall t1 t2 t3, R t1 t2 -> R t2 t3 -> R t1 t3.
Hypothesis R_reconciled : forall t t', reconciled t t' -> R t t'.
Hypothesis R_found : forall key t t', recording_found key t t' -> R t t'.

Lemma many_reconciled_related t t' : rtc reconciled t t' -> R t t'.
Proof. induction 1; eauto. Qed.

Lemma many_found_related key t t' : rtc (recording_found key) t t' -> R t t'.
Proof. induction 1; eauto. Qed.

Lemma poller_related env h m s :
  R (meetings s) (meetings (get_bbb_meetings_recorded env h m s).2).
Proof.
  unfold get_bbb_meetings_recorded.
  unfold try_except, mbind, M_bind, read. cbn [fst snd].
  match goal with |- context [for_fold ?l ?f ?acc s] =>
    assert (R (meetings s) (meetings (for_fold l f acc s).2)) as Hloop;
    [|destruct (for_fold l f acc s) as [[r|e] s2]; exact Hloop]
  end.
  apply (for_fold_keeps (fun s' => R (meetings s) (meetings s'))); [|apply R_refl].
  intros [pk o] [h' m'] s' _ Hs'. eapply R_trans; [exact Hs'|].
  eapply many_found_related. apply get_bbb_recording_by_xml_found.
Qed.

Lemma handle_related env task s : R (meetings s) (meetings (handle env task s).2).
Proof.
  unfold handle.
  destruct (negb (String.eqb task EmptyString) && is_in task valid_args);
    [|apply R_refl].
  unfold mbind, M_bind.
  pose proof (many_reconciled_related _ _
                (discovery_reconciled env EmptyString EmptyString s)) as H1.
  destruct (get_bbb_meetings_by_xml env EmptyString EmptyString s)
    as [[[h1 m1]|] s1]; [|exact H1].
  simpl in H1. eapply R_trans; [exact H1|]. clear H1.
  pose proof (poller_related env h1 m1 s1) as H2.
  destruct (get_bbb_meetings_recorded env h1 m1 s1) as [[[h2 m2]|] s2];
    [|exact H2].
  simpl in H2.
  pose proof (matching_bbb_pod_user_meetings env h2 m2 s2) as H3.
  destruct (matching_bbb_pod_user env h2 m2 s2) as [[[h3 m3]|] s3];
    simpl in H3; [|cbn [fst snd]; by rewrite H3].
  match goal with |- context [for_fold ?l ?f ?acc s3] =>
    pose proof (for_fold_keeps (fun s' => meetings s' = meetings s3) l f) as H4;
    specialize (H4 ltac:(intros [root files] [h' m'] s' _ <-;
                         apply process_directory_meetings) acc s3 eq_refl);
    destruct (for_fold l f acc s3) as [[[h4 m4]|] s4]
  end; simpl in H4; cbn [fst snd].
  - destruct (negb (String.eqb m4 EmptyString)); unfold log, mret, M_ret;
      cbn [fst snd meetings]; rewrite H4, H3; exact H2.
  - rewrite H4, H3. exact H2.
Qed.

Lemma runs_related envs : forall s, R (meetings s) (meetings (runs envs s)).
Proof.
  unfold runs. induction envs as [|env envs IH]; intros s; [apply R_refl|].
  simpl. eapply R_trans; [apply handle_related|apply IH].
Qed.

End MeetingsThroughRuns.

Lemma same_meeting_refl o : same_meeting o o.
Proof. unfold same_meeting. tauto. Qed.

Lemma same_meeting_trans o1 o2 o3 :
  same_meeting o1 o2 -> same_meeting o2 o3 -> same_meeting o1 o3.
Proof. unfold same_meeting. intuition congruence. Qed.

(** X27: this command never deletes a meeting and never rewrites what
    identifies it.  Through any runs, with any answers of the server, a
    row of the table of meetings stays under its key with the same
    meeting id, internal id, name, date, encoding step and owner; its
    [recorded] and [recording_available] flags, once true, stay true. *)
Theorem meeting_row_persists (envs : list environment) (s : pod)
    (pk : Z) (oMeeting : Meeting.t) :
  meetings s !! pk = Some oMeeting ->
  exists o',
    meetings (runs envs s) !! pk = Some o' /\ same_meeting oMeeting o'.
Proof.
  revert pk oMeeting. change (meetings_persist (meetings s) (meetings (runs envs s))).
  apply (runs_related meetings_persist).
  - intros t pk o Hpk. exists o. split; [exact Hpk|apply same_meeting_refl].
  - intros t1 t2 t3 H12 H23 pk o Hpk.
    destruct (H12 pk o Hpk) as (o2 & Hpk2 & Hs2).
    destruct (H23 pk o2 Hpk2) as (o3 & Hpk3 & Hs3).
    exists o3. split; [exact Hpk3|by eapply same_meeting_trans].
  - intros t t' [|pk' o' Hpk' Hrec|pk' o' Hnone _ _] pk o Hpk.
    + exists o. split; [exact Hpk|apply same_meeting_refl].
    + destruct (decide (pk' = pk)) as [->|Hne].
      * rewrite lookup_insert_eq. simplify_eq. eexists. split; [reflexivity|].
        unfold same_meeting. simpl. tauto.
      * rewrite lookup_insert_ne by done. exists o.
        split; [exact Hpk|apply same_meeting_refl].
    + rewrite lookup_insert_ne by congruence. exists o.
      split; [exact Hpk|apply same_meeting_refl].
  - intros key t t' [|pk' o' url thumbnail Hpk' _] pk o Hpk.
    + exists o. split; [exact Hpk|apply same_meeting_refl].
    + destruct (decide (pk' = pk)) as [->|Hne].
      * rewrite lookup_insert_eq. simplify_eq. eexists. split; [reflexivity|].
        unfold same_meeting. simpl. tauto.
      * rewrite lookup_insert_ne by done. exists o.
        split; [exact Hpk|apply same_meeting_refl].
Qed.

Lemma meeting_row_persists_witness :
  exists o',
    meetings (runs [Run.recording_env; Run.again_env] Run.recorded_session) !! 1
    = Some o'
    /\ same_meeting (Scenario.session "M1" true false None) o'.
Proof.
  apply (meeting_row_persists [Run.recording_env; Run.again_env]
           Run.recorded_session 1 (Scenario.session "M1" true false None)).
  reflexivity.
Defined.

(** X28: a recording that is available has a URL and a thumbnail.  If
    that holds of the table of meetings before the runs, it holds after
    them: a meeting is created with its recording not available, and the
    recording is made available only together with its URL and its
    thumbnail. *)
Theorem available_recording_has_urls (envs : list environment) (s : pod) :
  available_has_urls (meetings s) ->
  available_has_urls (meetings (runs envs s)).
Proof.
  apply (runs_related (fun t t' => available_has_urls t -> available_has_urls t')).
  - auto.
  - auto.
  - intros t t' [|pk' o' Hpk' Hrec|pk' o' Hnone _ Hav] Ht pk o Hpk Hav'.
    + by eapply Ht.
    + rewrite lookup_insert in Hpk.
      destruct (decide (pk' = pk)) as [->|Hne]; [|by eapply Ht].
      simplify_eq. by apply (Ht pk o').
    + rewrite lookup_insert in Hpk.
      destruct (decide (pk' = pk)) as [->|Hne]; [|by eapply Ht].
      simplify_eq. congruence.
  - intros key t t' [|pk' o' url thumbnail Hpk' _] Ht pk o Hpk Hav'.
    + by eapply Ht.
    + rewrite lookup_insert in Hpk.
      destruct (decide (pk' = pk)) as [->|Hne]; [|by eapply Ht].
      simplify_eq. simpl. split; by eexists.
Qed.

Lemma available_recording_has_urls_witness :
  available_has_urls
    (meetings (runs [Run.recording_env; Run.again_env] Run.recorded_session)).
Proof.
  apply (available_recording_has_urls [Run.recording_env; Run.again_env]
           Run.recorded_session).
  intros pk o Hpk Hav. simpl in Hpk.
  apply lookup_singleton_Some in Hpk as [_ <-]. discriminate Hav.
Defined.

(** ** Invariants of the database and of the trace *)

Lemma handle_is_stages_then_report env s :
  handle env "main" s
  = match stages env s with
    | (Ok (html_message_error, message_error), s') =>
        if negb (String.eqb message_error EmptyString)
        then log (Mail_admins message_error html_message_error) s'
        else (Ok tt, s')
    | (Raise e, s') => (Raise e, s')
    end.
Proof.
  unfold handle, stages. cbn [String.eqb Ascii.eqb Bool.eqb negb andb is_in
                              valid_args existsb orb].
  unfold mbind, M_bind.
  destruct (get_bbb_meetings_by_xml env _ _ s) as [[[h1 m1]|] s1]; [|reflexivity].
  destruct (get_bbb_meetings_recorded env _ _ s1) as [[[h2 m2]|] s2]; [|reflexivity].
  destruct (matching_bbb_pod_user env _ _ s2) as [[[h3 m3]|] s3]; [|reflexivity].
  destruct (for_fold _ _ _ s3) as [[[h4 m4]|] s4]; [|reflexivity].
  destruct (negb _); reflexivity.
Qed.

Section Preserved.

Variable Inv : pod -> Prop.

Hypothesis Inv_meetings : forall s f, Inv s -> Inv (with_meetings f s).
Hypothesis Inv_bbb_users : forall s f, Inv s -> Inv (with_bbb_users f s).
Hypothesis Inv_video : forall s v,
  Inv s -> Inv (with_videos (insert (Orm.next_id (videos s)) v) s).
Hypothesis Inv_log : forall s e, is_report e = false -> Inv s -> Inv (log e s).2.

Lemma preserves_bind {A B : Type} (c : M A) (f : A -> M B) :
  preserves Inv c -> (forall a, preserves Inv (f a)) -> preserves Inv (c ≫= f).
Proof.
  intros Hc Hf s Hs. unfold mbind, M_bind.
  specialize (Hc s Hs). destruct (c s) as [[a|e] s1]; simpl in *; [|exact Hc].
  by apply Hf.
Qed.

Lemma preserves_try {A : Type} (body : M A) (handler : exn -> M A) :
  preserves Inv body -> (forall e, preserves Inv (handler e)) ->
  preserves Inv (try_except body handler).
Proof.
  intros Hb Hh s Hs. unfold try_except.
  specialize (Hb s Hs). destruct (body s) as [[a|e] s1]; simpl in *; [exact Hb|].
  by apply Hh.
Qed.

Lemma preserves_same {A : Type} (c : M A) :
  (forall s, (c s).2 = s) -> preserves Inv c.
Proof. intros Hc s Hs. by rewrite Hc. Qed.

Lemma preserves_for_each {A B : Type} (l : list A) (f : A -> M B) :
  (forall x, preserves Inv (f x)) -> preserves Inv (for_each l f).
Proof. intros Hf s Hs. apply (for_each_keeps Inv); [|exact Hs]. intros x s' _. apply Hf. Qed.

Lemma preserves_for_fold {A B : Type} (l : list A) (f : A -> B -> M B) acc :
  (forall x acc', preserves Inv (f x acc')) -> preserves Inv (for_fold l f acc).
Proof.
  intros Hf s Hs. apply (for_fold_keeps Inv); [|exact Hs].
  intros x acc' s' _. apply Hf.
Qed.

Lemma preserves_log e : is_report e = false -> preserves Inv (log e).
Proof. intros He s Hs. by apply Inv_log. Qed.

Lemma preserves_call {A : Type} e (answer : list event -> result A) :
  is_report e = false -> preserves Inv (call e answer).
Proof. intros He s Hs. unfold call. cbn [snd]. by apply Inv_log. Qed.

Lemma preserves_Meeting_first key : preserves Inv (Meeting_first key).
Proof. intros s Hs. unfold Meeting_first. cbn [snd]. by apply Inv_log. Qed.

Ltac preserves_step :=
  lazymatch goal with
  | |- preserves _ (try_except _ _) => apply preserves_try; [|intros ?]
  | |- preserves _ (mbind _ _) => apply preserves_bind; [|intros ?]
  | |- preserves _ (for_each _ _) => apply preserves_for_each; intros ?
  | |- preserves _ (for_fold _ _ _) => apply preserves_for_fold; intros ? ?
  | |- preserves _ (mret _) => apply preserves_same; intros ?; reflexivity
  | |- preserves _ (lift _) => apply preserves_same; intros ?; reflexivity
  | |- preserves _ (read _) => apply preserves_same; intros ?; reflexivity
  | |- preserves _ (User_get _) => apply preserves_same; intros ?; reflexivity
  | |- preserves _ (Type_get _) => apply preserves_same; intros ?; reflexivity
  | |- preserves _ (BBBUser_first _ _) => apply preserves_same; intros ?; reflexivity
  | |- preserves _ (call _ _) => apply preserves_call; reflexivity
  | |- preserves _ (log _) => apply preserves_log; reflexivity
  | |- preserves _ (Meeting_first _) => apply preserves_Meeting_first
  | |- preserves _ (Meeting_save _ _) => intros ? ?; apply Inv_meetings; assumption
  | |- preserves _ (Meeting_create _) => intros ? ?; apply Inv_meetings; assumption
  | |- preserves _ (BBBUser_save _ _) => intros ? ?; apply Inv_bbb_users; assumption
  | |- preserves _ (BBBUser_create _) => intros ? ?; apply Inv_bbb_users; assumption
  | |- preserves _ (Video_create _) => intros ? ?; apply Inv_video; assumption
  | |- preserves _ (get_attendee _ _ _ _ _) => unfold get_attendee
  | |- preserves _ (get_meeting _ _ _ _) => unfold get_meeting
  | |- preserves _ (get_bbb_meetings_by_xml _ _ _) => unfold get_bbb_meetings_by_xml
  | |- preserves _ (read_playbacks _) => unfold read_playbacks
  | |- preserves _ (get_recording _ _ _ _ _) => unfold get_recording
  | |- preserves _ (get_bbb_recording_by_xml _ _ _ _ _) =>
      unfold get_bbb_recording_by_xml
  | |- preserves _ (get_bbb_meetings_recorded _ _ _) =>
      unfold get_bbb_meetings_recorded
  | |- preserves _ (match_bbb_user _ _) => unfold match_bbb_user
  | |- preserves _ (matching_bbb_pod_user _ _ _) => unfold matching_bbb_pod_user
  | |- preserves _ (encode_file_exist _ _ _ _ _) => unfold encode_file_exist
  | |- preserves _ (process_directory _ _ _ _ _) => unfold process_directory
  | |- preserves _ (match ?x with _ => _ end) => destruct x
  | |- preserves _ (let _ := _ in _) => cbv zeta
  end.

Lemma stages_preserve env : preserves Inv (stages env).
Proof.
  unfold stages. repeat preserves_step.
  destruct x as [root files], acc' as [h m]. repeat preserves_step.
Qed.

End Preserved.

Lemma handle_cases env task s :
  handle env task s = (Ok tt, s) \/ handle env task s = handle env "main" s.
Proof.
  destruct (String.eqb task "main") eqn:Htask.
  - apply String.eqb_eq in Htask. subst task. by right.
  - left. unfold handle, valid_args, is_in. cbn [existsb].
    by rewrite Htask, orb_false_r, andb_false_r.
Qed.

(** X29: the command only reads the accounts and the types, and only
    adds to the videos: after any runs, the table of Pod accounts and the
    table of types are what they were, and every video that was in the
    table is still there, unchanged. *)
Theorem accounts_and_types_are_only_read (envs : list environment) (s : pod) :
  users (runs envs s) = users s
  /\ types (runs envs s) = types s
  /\ forall pk v, videos s !! pk = Some v -> videos (runs envs s) !! pk = Some v.
Proof.
  set (Inv := fun s' : pod =>
         users s' = users s /\ types s' = types s
         /\ forall pk v, videos s !! pk = Some v -> videos s' !! pk = Some v).
  assert (forall env task, preserves Inv (handle env task)) as Hhandle.
  { intros env task s1 Hs1.
    destruct (handle_cases env task s1) as [->| ->]; [exact Hs1|].
    rewrite handle_is_stages_then_report.
    assert (Inv (stages env s1).2) as Hstages.
    { apply (stages_preserve Inv); [| | | |exact Hs1]; unfold Inv.
      - intros s' f Hs'. exact Hs'.
      - intros s' f Hs'. exact Hs'.
      - intros s' v (Hu & Ht & Hv). split; [exact Hu|]. split; [exact Ht|].
        intros pk v' Hpk. cbn. rewrite lookup_insert_ne; [by apply Hv|].
        intros <-. apply Hv in Hpk. by rewrite next_id_fresh in Hpk.
      - intros s' e _ Hs'. exact Hs'. }
    destruct (stages env s1) as [[[h m]|e] s2]; [|exact Hstages].
    destruct (negb _); exact Hstages. }
  assert (forall s1, Inv s1 -> Inv (runs envs s1)) as Hruns.
  { unfold runs. induction envs as [|env envs IH]; intros s1 Hs1; [exact Hs1|].
    simpl. apply IH. by apply Hhandle. }
  apply Hruns. unfold Inv. auto.
Qed.

